(** * chemkit: the molecule geometry optimizer

    A shallow embedding of [src/md/moleculegeometryoptimizer.cpp]
    (class [MoleculeGeometryOptimizer]) and the properties of its
    line-search step engine and of its optimization driver.

    Conventions of the embedding.
    - [Real] is the default build's [double]: an IEEE 754 binary64 number,
      here Rocq's primitive [float] (same rounding, same NaN comparisons).
    - Pointers that may be null are [option]s; the session record carries
      the state of the molecule it points to, since the optimizer is the
      only code that runs between its own calls.
    - The force field is an abstract class in the source; it is an
      interface (a type class) here, and so is the random source behind
      Eigen's [Vector3::Random()].
    - The [while] loop of [optimize()] has no iteration cap; it is run with
      fuel and returns [None] when the fuel is exhausted.
    - The source indexes its containers without a check.  The functions
      that loop over atoms come twice: total, leaving alone what an index
      out of range would touch, and checked, with [None] for such an
      index; the two agree wherever the checked one is defined, which it
      is in every call that follows a successful [setup()]. *)

From Stdlib Require Import ZArith String List Bool Lia Floats.
From stdpp Require Import base option list.
Import ListNotations.

#[local] Set Warnings "-inexact-float".
#[local] Open Scope string_scope.
#[local] Open Scope list_scope.

(** ** Scalars, vectors and coordinate sets *)

Definition Real : Type := float.

(** Eigen's 3-vector of [Real]s; [Point3] is the same type in chemkit. *)
Record Vector3 : Type := mkVector3 { vx : Real; vy : Real; vz : Real }.

Abbreviation Point3 := Vector3.

(** Unary minus, [v * s] and [a + b] on vectors, coefficient by coefficient. *)
Definition vneg (v : Vector3) : Vector3 :=
  mkVector3 (- vx v)%float (- vy v)%float (- vz v)%float.

Definition vscale (v : Vector3) (s : Real) : Vector3 :=
  mkVector3 (vx v * s)%float (vy v * s)%float (vz v * s)%float.

Definition vadd (a b : Vector3) : Vector3 :=
  mkVector3 (vx a + vx b)%float (vy a + vy b)%float (vz a + vz b)%float.

(** [CartesianCoordinates]: one point per atom, read and written by index. *)
Abbreviation CartesianCoordinates := (list Point3).

(** Modelled from the spec: the [Atom] and [Molecule] classes are not among
    the sources; the spec describes a molecule as a mutable collection of
    atoms, each with a settable 3D position.  The atomic number stands for
    whatever else an atom carries that a force field may look at. *)
Record Atom : Type := mkAtom { atomicNumber : Z; atom_position : Point3 }.

Record Molecule : Type := mkMolecule { atoms : list Atom }.

Definition Molecule_size (m : Molecule) : nat := length (atoms m).

Definition Molecule_coordinates (m : Molecule) : CartesianCoordinates :=
  atom_position <$> atoms m.

(** [molecule->atom(i)->setPosition(p)]. *)
Definition Atom_setPosition (m : Molecule) (i : nat) (p : Point3) : Molecule :=
  mkMolecule (alter (fun a => mkAtom (atomicNumber a) p) i (atoms m)).

(** ** The collaborators of the optimizer *)

(** The [ForceField] abstract class, as far as the optimizer calls it.
    [ForceField_create] is the registry lookup [ForceField::create(name)],
    null when no plugin of that name is registered.  [energy], [gradient]
    and [rmsg] are [const] member functions taking the coordinates. *)
Class ForceFieldInterface (FF : Type) : Type := {
  ForceField_create : string -> option FF;
  ff_setMolecule : FF -> Molecule -> FF;
  ff_setup : FF -> bool * FF;
  ff_energy : FF -> CartesianCoordinates -> Real;
  ff_gradient : FF -> CartesianCoordinates -> list Vector3;
  ff_rmsg : FF -> CartesianCoordinates -> Real;
  ff_atomCount : FF -> Z
}.

(** [Vector3::Random().normalized()] of Eigen: a draw from the process-wide
    random state, scaled to unit length by the library. *)
Class RandomSource (R : Type) : Type := {
  Vector3_Random_normalized : R -> Vector3 * R
}.

(** Control leaving the body of a [for] loop. *)
Inductive control : Type := Continue | Break.

Module Optimizer.
Section WithCollaborators.

Context {FF : Type} {forceFields : ForceFieldInterface FF}.
Context {R : Type} {random : RandomSource R}.

(** ** The session: [MoleculeGeometryOptimizerPrivate]

    [molecule] holds the pointee of [Molecule *molecule]; [randState] is
    the random state [step()] draws from, threaded next to the fields. *)
Record MoleculeGeometryOptimizerPrivate : Type := mkPrivate {
  molecule : option Molecule;
  forceField : option FF;
  forceFieldName : string;
  errorString : string;
  coordinates : CartesianCoordinates;
  randState : R
}.

Abbreviation Session := MoleculeGeometryOptimizerPrivate.

(** The constructor: default force field ["uff"], no force field object,
    empty error string and coordinates. *)
Definition MoleculeGeometryOptimizer (m : option Molecule) (r : R) : Session :=
  mkPrivate m None "uff" "" [] r.

Definition setMolecule (d : Session) (m : option Molecule) : Session :=
  mkPrivate m (forceField d) (forceFieldName d) (errorString d)
            (coordinates d) (randState d).

Definition setForceField (d : Session) (name : string) : bool * Session :=
  (true,
   mkPrivate (molecule d) (forceField d) name (errorString d)
             (coordinates d) (randState d)).

Definition energy (d : Session) : Real :=
  match forceField d with
  | None => 0%float
  | Some ff => ff_energy ff (coordinates d)
  end.

Definition setup (d : Session) : bool * Session :=
  match molecule d with
  | None =>
      (false,
       mkPrivate (molecule d) (forceField d) (forceFieldName d)
                 "No molecule specified" (coordinates d) (randState d))
  | Some m =>
      match ForceField_create (forceFieldName d) with
      | None =>
          (false,
           mkPrivate (molecule d) None (forceFieldName d)
                     ("Force field '" ++ forceFieldName d
                        ++ "' is not supported.")
                     (coordinates d) (randState d))
      | Some created =>
          let (ok, ff) := ff_setup (ff_setMolecule created m) in
          if ok then
            (true,
             mkPrivate (molecule d) (Some ff) (forceFieldName d)
                       (errorString d) (Molecule_coordinates m) (randState d))
          else
            (false,
             mkPrivate (molecule d) (Some ff) (forceFieldName d)
                       "Failed to setup force field."
                       (coordinates d) (randState d))
      end
  end.

(** ** The line search of [step()] *)

Definition defaultStep : Real := 0.05%float.
Definition stepConv : Real := 1e-5%float.
Definition stepCount : nat := 10.
Definition converganceValue : Real := 0.1%float.

(** The locals of [step()] that live across inner iterations, with the two
    session fields the loop touches. *)
Record LineSearch : Type := mkLineSearch {
  ls_coordinates : CartesianCoordinates;
  ls_rand : R;
  ls_step : Real;
  ls_initialEnergy : Real;
  ls_gradient : list Vector3
}.

(** [for(atomIndex < atomCount()) coordinates[atomIndex] += -gradient[atomIndex] * step].
    An index outside either container is undefined behaviour in the
    source; this total version leaves the coordinates as they are there.
    [moveAtomsChecked] below is the same loop with every index checked,
    and the two agree wherever the source is defined. *)
Definition moveAtoms (ff : FF) (c : CartesianCoordinates)
    (gradient : list Vector3) (step : Real) : CartesianCoordinates :=
  fold_left
    (fun (c : CartesianCoordinates) (atomIndex : nat) =>
       match c !! atomIndex, gradient !! atomIndex with
       | Some p, Some g => <[atomIndex := vadd p (vscale (vneg g) step)]> c
       | _, _ => c
       end)
    (seq 0 (Z.to_nat (ff_atomCount ff))) c.

(** The NaN branch's loop: every atom goes to its saved position plus a
    fresh [Vector3::Random().normalized()].  A saved position that is not
    there is undefined behaviour in the source; this total version skips
    the atom, and [wiggleChecked] below checks the index. *)
Definition wiggleAtom (initialCoordinates : CartesianCoordinates)
    (cr : CartesianCoordinates * R) (atomIndex : nat)
    : CartesianCoordinates * R :=
  let (u, r') := Vector3_Random_normalized (snd cr) in
  match initialCoordinates !! atomIndex with
  | Some position => (<[atomIndex := vadd position u]> (fst cr), r')
  | None => (fst cr, r')
  end.

Definition wiggle (ff : FF) (initialCoordinates c : CartesianCoordinates)
    (r : R) : CartesianCoordinates * R :=
  fold_left (wiggleAtom initialCoordinates)
            (seq 0 (Z.to_nat (ff_atomCount ff))) (c, r).

(** [step *= 2; if(step > 1) step = 1]. *)
Definition growStep (step : Real) : Real :=
  let doubled := (step * 2)%float in
  if (1 <? doubled)%float then 1%float else doubled.

(** [step *= 0.1]. *)
Definition shrinkStep (step : Real) : Real := (step * 0.1)%float.

(** One pass through the body of the [for] loop. *)
Definition lineSearchBody (ff : FF) (st : LineSearch) : control * LineSearch :=
  let initialCoordinates := ls_coordinates st in
  let moved :=
    moveAtoms ff initialCoordinates (ls_gradient st) (ls_step st) in
  let finalEnergy := ff_energy ff moved in
  let initialEnergy := ls_initialEnergy st in
  if is_nan finalEnergy then
    let (c, r) := wiggle ff initialCoordinates moved (ls_rand st) in
    (Continue,
     mkLineSearch c r (ls_step st) initialEnergy (ff_gradient ff c))
  else if (finalEnergy <? initialEnergy)%float
          && (abs (finalEnergy - initialEnergy) <? stepConv)%float then
    (Break,
     mkLineSearch moved (ls_rand st) (ls_step st) initialEnergy
                  (ls_gradient st))
  else if (finalEnergy <? initialEnergy)%float then
    (Continue,
     mkLineSearch moved (ls_rand st) (growStep (ls_step st)) finalEnergy
                  (ls_gradient st))
  else if (initialEnergy <? finalEnergy)%float then
    (Continue,
     mkLineSearch initialCoordinates (ls_rand st) (shrinkStep (ls_step st))
                  initialEnergy (ls_gradient st))
  else
    (Continue,
     mkLineSearch moved (ls_rand st) (ls_step st) initialEnergy
                  (ls_gradient st)).

(** [for(int i = 0; i < count; i++) body], with [break]; the second
    component counts the passes through the body, that is the tentative
    moves made. *)
Fixpoint lineSearch (ff : FF) (count : nat) (st : LineSearch)
    : LineSearch * nat :=
  match count with
  | O => (st, O)
  | S count' =>
      match lineSearchBody ff st with
      | (Break, st') => (st', 1)
      | (Continue, st') =>
          let (st'', n) := lineSearch ff count' st' in (st'', S n)
      end
  end.

(** The locals as [step()] sets them before the loop. *)
Definition lineSearchInit (ff : FF) (d : Session) : LineSearch :=
  mkLineSearch (coordinates d) (randState d) defaultStep
               (ff_energy ff (coordinates d))
               (ff_gradient ff (coordinates d)).

(** ** [step()], [writeCoordinates()] and [optimize()] *)

Definition step (d : Session) : bool * Session :=
  match molecule d, forceField d with
  | Some _, Some ff =>
      let st := fst (lineSearch ff stepCount (lineSearchInit ff d)) in
      ((ff_rmsg ff (ls_coordinates st) <? converganceValue)%float,
       mkPrivate (molecule d) (forceField d) (forceFieldName d)
                 (errorString d) (ls_coordinates st) (ls_rand st))
  | _, _ => (false, d)
  end.

(** [for(i < molecule->size()) molecule->atom(i)->setPosition(coordinates.position(i))];
    a position read past the end of the coordinates is undefined behaviour
    in the source and leaves the atom alone in this total version;
    [writeAtomsChecked] below checks the index. *)
Definition writeAtoms (c : CartesianCoordinates) (m : Molecule) : Molecule :=
  fold_left
    (fun (m : Molecule) (i : nat) =>
       match c !! i with
       | Some p => Atom_setPosition m i p
       | None => m
       end)
    (seq 0 (Molecule_size m)) m.

Definition writeCoordinates (d : Session) : Session :=
  match molecule d, forceField d with
  | Some m, Some _ =>
      mkPrivate (Some (writeAtoms (coordinates d) m)) (forceField d)
                (forceFieldName d) (errorString d) (coordinates d)
                (randState d)
  | _, _ => d
  end.

(** [while(!done) done = step();] with fuel: [None] when [fuel] calls of
    [step()] have not converged. *)
Fixpoint optimizeLoop (fuel : nat) (d : Session) : option Session :=
  match fuel with
  | O => None
  | S fuel' =>
      let (done, d') := step d in
      if done then Some d' else optimizeLoop fuel' d'
  end.

Definition optimize (fuel : nat) (d : Session) : option (bool * Session) :=
  let (ok, d0) := setup d in
  if negb ok then Some (false, d0)
  else
    match optimizeLoop fuel d0 with
    | None => None
    | Some d1 => Some (true, writeCoordinates d1)
    end.

(** [optimizeCoordinates(molecule)]: a temporary optimizer constructed for
    [molecule] and run to the end.  The caller gets the flag; the molecule
    behind the pointer and the random state are what the run leaves. *)
Definition optimizeCoordinates (fuel : nat) (m : option Molecule) (r : R)
    : option (bool * option Molecule * R) :=
  match optimize fuel (MoleculeGeometryOptimizer m r) with
  | Some (b, d) => Some (b, molecule d, randState d)
  | None => None
  end.

(** ** The same code with every index checked

    The source indexes [coordinates], [gradient] and the saved coordinates
    without a bounds check.  In the functions below an index past the end
    of a container gives [None]: the call has no defined behaviour there.
    Wherever they give [Some], the total functions above give the same. *)

Definition moveAtomsChecked (ff : FF) (c : CartesianCoordinates)
    (gradient : list Vector3) (step : Real) : option CartesianCoordinates :=
  fold_left
    (fun (oc : option CartesianCoordinates) (atomIndex : nat) =>
       match oc with
       | Some c =>
           match c !! atomIndex, gradient !! atomIndex with
           | Some p, Some g =>
               Some (<[atomIndex := vadd p (vscale (vneg g) step)]> c)
           | _, _ => None
           end
       | None => None
       end)
    (seq 0 (Z.to_nat (ff_atomCount ff))) (Some c).

Definition wiggleAtomChecked (initialCoordinates : CartesianCoordinates)
    (ocr : option (CartesianCoordinates * R)) (atomIndex : nat)
    : option (CartesianCoordinates * R) :=
  match ocr with
  | Some cr =>
      match initialCoordinates !! atomIndex, fst cr !! atomIndex with
      | Some position, Some _ =>
          let (u, r') := Vector3_Random_normalized (snd cr) in
          Some (<[atomIndex := vadd position u]> (fst cr), r')
      | _, _ => None
      end
  | None => None
  end.

Definition wiggleChecked (ff : FF) (initialCoordinates c : CartesianCoordinates)
    (r : R) : option (CartesianCoordinates * R) :=
  fold_left (wiggleAtomChecked initialCoordinates)
            (seq 0 (Z.to_nat (ff_atomCount ff))) (Some (c, r)).

Definition lineSearchBodyChecked (ff : FF) (st : LineSearch)
    : option (control * LineSearch) :=
  let initialCoordinates := ls_coordinates st in
  match moveAtomsChecked ff initialCoordinates (ls_gradient st) (ls_step st) with
  | None => None
  | Some moved =>
      let finalEnergy := ff_energy ff moved in
      let initialEnergy := ls_initialEnergy st in
      if is_nan finalEnergy then
        match wiggleChecked ff initialCoordinates moved (ls_rand st) with
        | None => None
        | Some (c, r) =>
            Some (Continue,
                  mkLineSearch c r (ls_step st) initialEnergy
                               (ff_gradient ff c))
        end
      else if (finalEnergy <? initialEnergy)%float
              && (abs (finalEnergy - initialEnergy) <? stepConv)%float then
        Some (Break,
              mkLineSearch moved (ls_rand st) (ls_step st) initialEnergy
                           (ls_gradient st))
      else if (finalEnergy <? initialEnergy)%float then
        Some (Continue,
              mkLineSearch moved (ls_rand st) (growStep (ls_step st))
                           finalEnergy (ls_gradient st))
      else if (initialEnergy <? finalEnergy)%float then
        Some (Continue,
              mkLineSearch initialCoordinates (ls_rand st)
                           (shrinkStep (ls_step st)) initialEnergy
                           (ls_gradient st))
      else
        Some (Continue,
              mkLineSearch moved (ls_rand st) (ls_step st) initialEnergy
                           (ls_gradient st))
  end.

Fixpoint lineSearchChecked (ff : FF) (count : nat) (st : LineSearch)
    : option (LineSearch * nat) :=
  match count with
  | O => Some (st, O)
  | S count' =>
      match lineSearchBodyChecked ff st with
      | None => None
      | Some (Break, st') => Some (st', 1)
      | Some (Continue, st') =>
          match lineSearchChecked ff count' st' with
          | None => None
          | Some (st'', n) => Some (st'', S n)
          end
      end
  end.

Definition stepChecked (d : Session) : option (bool * Session) :=
  match molecule d, forceField d with
  | Some _, Some ff =>
      match lineSearchChecked ff stepCount (lineSearchInit ff d) with
      | None => None
      | Some (st, _) =>
          Some ((ff_rmsg ff (ls_coordinates st) <? converganceValue)%float,
                mkPrivate (molecule d) (forceField d) (forceFieldName d)
                          (errorString d) (ls_coordinates st) (ls_rand st))
      end
  | _, _ => Some (false, d)
  end.

Definition writeAtomsChecked (c : CartesianCoordinates) (m : Molecule)
    : option Molecule :=
  fold_left
    (fun (om : option Molecule) (i : nat) =>
       match om with
       | Some m =>
           match c !! i with
           | Some p => Some (Atom_setPosition m i p)
           | None => None
           end
       | None => None
       end)
    (seq 0 (Molecule_size m)) (Some m).

Definition writeCoordinatesChecked (d : Session) : option Session :=
  match molecule d, forceField d with
  | Some m, Some _ =>
      match writeAtomsChecked (coordinates d) m with
      | None => None
      | Some m' =>
          Some (mkPrivate (Some m') (forceField d) (forceFieldName d)
                          (errorString d) (coordinates d) (randState d))
      end
  | _, _ => Some d
  end.

End WithCollaborators.
End Optimizer.

(** ** A small force-field plugin set, for concrete runs

    Atoms tethered to the origin by a harmonic spring of constant [k]
    (energy [k/2 * |p|^2] per atom), and a square-root well along x
    (energy [sqrt x] per atom) whose energy is NaN left of the origin.
    [setup()] rejects a molecule with an atom of atomic number 0. *)
Module Toy.

Inductive kind : Type := Harmonic (k : Real) | SqrtWell.

Record ToyForceField : Type := mkToy {
  toy_kind : kind;
  toy_molecule : option Molecule
}.

Definition squaredNorm (v : Vector3) : Real :=
  (vx v * vx v + vy v * vy v + vz v * vz v)%float.

Definition atomEnergy (k : kind) (p : Point3) : Real :=
  match k with
  | Harmonic k => (0.5 * k * squaredNorm p)%float
  | SqrtWell => sqrt (vx p)
  end.

Definition atomGradient (k : kind) (p : Point3) : Vector3 :=
  match k with
  | Harmonic k => vscale p k
  | SqrtWell => mkVector3 (0.5 / sqrt (vx p))%float 0%float 0%float
  end.

Definition sumReal (l : list Real) : Real :=
  fold_left (fun a b => (a + b)%float) l 0%float.

Definition toyAtomCount (ff : ToyForceField) : Z :=
  match toy_molecule ff with
  | Some m => Z.of_nat (Molecule_size m)
  | None => 0%Z
  end.

Definition toyGradient (ff : ToyForceField) (c : CartesianCoordinates)
    : list Vector3 :=
  atomGradient (toy_kind ff) <$> c.

Definition create (name : string) : option ToyForceField :=
  if String.eqb name "uff" then Some (mkToy (Harmonic 1%float) None)
  else if String.eqb name "soft" then Some (mkToy (Harmonic 0.01%float) None)
  else if String.eqb name "stiff" then Some (mkToy (Harmonic 100%float) None)
  else if String.eqb name "rigid" then Some (mkToy (Harmonic 1e12%float) None)
  else if String.eqb name "sqrt" then Some (mkToy SqrtWell None)
  else None.

Definition toySetup (ff : ToyForceField) : bool * ToyForceField :=
  (match toy_molecule ff with
   | Some m => forallb (fun a => (0 <? atomicNumber a)%Z) (atoms m)
   | None => false
   end, ff).

#[global] Instance toyForceField : ForceFieldInterface ToyForceField := {
  ForceField_create := create;
  ff_setMolecule := fun ff m => mkToy (toy_kind ff) (Some m);
  ff_setup := toySetup;
  ff_energy := fun ff c => sumReal (atomEnergy (toy_kind ff) <$> c);
  ff_gradient := toyGradient;
  ff_rmsg := fun ff c =>
    sqrt (sumReal (squaredNorm <$> toyGradient ff c)
          / (3 * of_uint63 (Uint63.of_Z (toyAtomCount ff))))%float;
  ff_atomCount := toyAtomCount
}.

(** A random source cycling through the three axis directions. *)
#[global] Instance axisCycle : RandomSource nat := {
  Vector3_Random_normalized := fun n =>
    (match n mod 3 with
     | 0 => mkVector3 1%float 0%float 0%float
     | 1 => mkVector3 0%float 1%float 0%float
     | _ => mkVector3 0%float 0%float 1%float
     end, S n)
}.

Definition atomAt (z : Z) (x : Real) : Atom :=
  mkAtom z (mkVector3 x 0%float 0%float).

Definition newSession (name : string) (l : list Atom)
    : Optimizer.MoleculeGeometryOptimizerPrivate (FF := ToyForceField) (R := nat) :=
  snd (Optimizer.setForceField
         (Optimizer.MoleculeGeometryOptimizer (Some (mkMolecule l)) 0) name).

(** The session after a successful [setup()], and the force field it has
    bound, for a molecule of carbon atoms on the x axis. *)
Definition configured (name : string) (xs : list Real)
    : Optimizer.MoleculeGeometryOptimizerPrivate (FF := ToyForceField) (R := nat) :=
  snd (Optimizer.setup (newSession name (atomAt 6 <$> xs))).

Definition bound (k : kind) (xs : list Real) : ToyForceField :=
  mkToy k (Some (mkMolecule (atomAt 6 <$> xs))).

(** A session that was configured for one carbon atom at [x = 1] with
    the default force field and was then handed a molecule with an atom of
    atomic number 0, which the force field's [setup()] rejects. *)
Definition rebound
    : Optimizer.MoleculeGeometryOptimizerPrivate (FF := ToyForceField) (R := nat) :=
  Optimizer.setMolecule (configured "uff" [1%float])
                        (Some (mkMolecule [atomAt 0 1%float])).

(** A session with two positions whose force field was set up for a
    molecule of one atom, and so counts one atom. *)
Definition firstAtomOnly
    : Optimizer.MoleculeGeometryOptimizerPrivate (FF := ToyForceField) (R := nat) :=
  Optimizer.mkPrivate
    (Some (mkMolecule [atomAt 6 2%float; atomAt 6 3%float]))
    (Some (bound (Harmonic 1%float) [2%float])) "uff" ""
    [mkVector3 2%float 0%float 0%float; mkVector3 3%float 0%float 0%float]
    0%nat.

(** A session whose [setup()] failed on an unregistered name and that was
    then given the molecule [l] and the force field [name]. *)
Definition recovered (name : string) (l : list Atom)
    : Optimizer.MoleculeGeometryOptimizerPrivate (FF := ToyForceField) (R := nat) :=
  snd (Optimizer.setForceField
         (Optimizer.setMolecule
            (snd (Optimizer.setup (newSession "nonexistent" [atomAt 6 1%float])))
            (Some (mkMolecule l)))
         name).

End Toy.

(** ** A force field with a ledge

    One coordinate matters, x.  Right of [x = 1] the energy is the gentle
    slope [0.1 x]; left of it lies a deep and stiff well around
    [x = 0.9], of energy [1e12/2 (x - 0.9)^2 - 1e12].  The gradient is the
    derivative of the energy and [rmsg] its root mean square over the
    three coordinates of each atom. *)
Module Ledge.

#[local] Open Scope float_scope.

Record LedgeForceField : Type := mkLedge { ledge_molecule : option Molecule }.

Definition atomEnergy (p : Point3) : Real :=
  if vx p <? 1
  then 0.5 * 1e12 * ((vx p - 0.9) * (vx p - 0.9)) - 1e12
  else 0.1 * vx p.

Definition atomGradient (p : Point3) : Vector3 :=
  if vx p <? 1
  then mkVector3 (1e12 * (vx p - 0.9)) 0 0
  else mkVector3 0.1 0 0.

Definition ledgeAtomCount (ff : LedgeForceField) : Z :=
  match ledge_molecule ff with
  | Some m => Z.of_nat (Molecule_size m)
  | None => 0%Z
  end.

#[global] Instance ledgeForceField : ForceFieldInterface LedgeForceField | 100 := {
  ForceField_create := fun name =>
    if String.eqb name "ledge" then Some (mkLedge None) else None;
  ff_setMolecule := fun ff m => mkLedge (Some m);
  ff_setup := fun ff =>
    (match ledge_molecule ff with Some _ => true | None => false end, ff);
  ff_energy := fun ff c => Toy.sumReal (atomEnergy <$> c);
  ff_gradient := fun ff c => atomGradient <$> c;
  ff_rmsg := fun ff c =>
    sqrt (Toy.sumReal (Toy.squaredNorm <$> (atomGradient <$> c))
          / (3 * of_uint63 (Uint63.of_Z (ledgeAtomCount ff))));
  ff_atomCount := ledgeAtomCount
}.

(** A new optimizer for one carbon atom at [x], with this force field. *)
Definition newSession (x : Real)
    : Optimizer.MoleculeGeometryOptimizerPrivate
        (FF := LedgeForceField) (R := nat) :=
  snd (Optimizer.setForceField
         (Optimizer.MoleculeGeometryOptimizer
            (Some (mkMolecule [Toy.atomAt 6 x])) 0%nat)
         "ledge").

End Ledge.

Import Optimizer.

(** ** Sessions reached by repeated [step()] calls, and the draws of the
    random source: the vocabulary of the statements below. *)
Section Vocabulary.

Context {FF : Type} {forceFields : ForceFieldInterface FF}.
Context {R : Type} {random : RandomSource R}.

(** The session after [k] calls of [step()]. *)
Fixpoint stepN (k : nat) (d : MoleculeGeometryOptimizerPrivate (FF := FF) (R := R))
    : MoleculeGeometryOptimizerPrivate :=
  match k with
  | O => d
  | S k' => stepN k' (snd (step d))
  end.

(** The next [n] values of [Vector3::Random().normalized()], and the random
    state after them. *)
Fixpoint randomUnits (n : nat) (r : R) : list Vector3 * R :=
  match n with
  | O => ([], r)
  | S n' =>
      let (u, r') := Vector3_Random_normalized r in
      let (us, r'') := randomUnits n' r' in
      (u :: us, r'')
  end.

(** The line-search state after [k] passes through the loop body, stopping
    early at a [break]. *)
Definition afterPasses (ff : FF) (k : nat) (st : LineSearch (R := R))
    : LineSearch :=
  fst (lineSearch ff k st).

(** The coordinates after the tentative move of a pass, and the energy
    there: [finalEnergy] in the source. *)
Definition movedCoordinates (ff : FF) (st : LineSearch (R := R))
    : CartesianCoordinates :=
  moveAtoms ff (ls_coordinates st) (ls_gradient st) (ls_step st).

Definition finalEnergy (ff : FF) (st : LineSearch (R := R)) : Real :=
  ff_energy ff (movedCoordinates ff st).

(** The step size of each tentative move a line search of at most [count]
    passes makes, in order. *)
Fixpoint stepSizesUsed (ff : FF) (count : nat) (st : LineSearch (R := R))
    : list Real :=
  match count with
  | O => []
  | S count' =>
      ls_step st ::
      match lineSearchBody ff st with
      | (Break, _) => []
      | (Continue, st') => stepSizesUsed ff count' st'
      end
  end.

(** The energy found after each tentative move of a line search of at
    most [count] passes, in order: the successive values of [finalEnergy]. *)
Fixpoint energiesEvaluated (ff : FF) (count : nat) (st : LineSearch (R := R))
    : list Real :=
  match count with
  | O => []
  | S count' =>
      finalEnergy ff st ::
      match lineSearchBody ff st with
      | (Break, _) => []
      | (Continue, st') => energiesEvaluated ff count' st'
      end
  end.

(** The session a call of [optimize()] leaves, [d] itself where the call
    does not return within [fuel] steps. *)
Definition sessionAfterOptimize (fuel : nat)
    (d : MoleculeGeometryOptimizerPrivate (FF := FF) (R := R))
    : MoleculeGeometryOptimizerPrivate :=
  match optimize fuel d with
  | Some (_, d') => d'
  | None => d
  end.

(** The session [d] with [e] for its error string. *)
Definition withError (e : string)
    (d : MoleculeGeometryOptimizerPrivate (FF := FF) (R := R))
    : MoleculeGeometryOptimizerPrivate :=
  mkPrivate (molecule d) (forceField d) (forceFieldName d) e
            (coordinates d) (randState d).

(** The coordinate set [c] and the gradient [g] have an entry for each of
    the force field's atoms, and so has the gradient the force field
    returns for any coordinate set of the size of [c]: every index the
    loops of [step()] use is in range. *)
Definition coversAtoms (ff : FF) (c : CartesianCoordinates)
    (g : list Vector3) : Prop :=
  (Z.to_nat (ff_atomCount ff) <= length c)%nat
  /\ (Z.to_nat (ff_atomCount ff) <= length g)%nat
  /\ forall c' : CartesianCoordinates,
       length c' = length c ->
       (Z.to_nat (ff_atomCount ff) <= length (ff_gradient ff c'))%nat.

(** The same of a session: its coordinates and the gradient there. *)
Definition sessionCoversAtoms (ff : FF)
    (d : MoleculeGeometryOptimizerPrivate (FF := FF) (R := R)) : Prop :=
  coversAtoms ff (coordinates d) (ff_gradient ff (coordinates d)).

End Vocabulary.

(** The step sizes a line search can hold after [k] passes: each pass
    leaves the step, grows it or shrinks it. *)
Fixpoint reachableSteps (k : nat) : list Real :=
  match k with
  | O => [defaultStep]
  | S k' =>
      flat_map (fun s => [s; growStep s; shrinkStep s]) (reachableSteps k')
  end.

(** The step size after [stepCount] shrinkings in a row. *)
Definition stepFloor : Real := Nat.iter stepCount shrinkStep defaultStep.

(** The place of a number that is not NaN on the line: its class (the
    infinities, the negative and the positive finite numbers, zero), then
    exponent and mantissa, negated for negative numbers.  IEEE comparison
    is the lexicographic comparison of these triples. *)
Definition SFkey (x : spec_float) : Z * Z * Z :=
  match x with
  | S754_nan => (0, 0, 0)%Z
  | S754_zero _ => (0, 0, 0)%Z
  | S754_infinity true => (-2, 0, 0)%Z
  | S754_infinity false => (2, 0, 0)%Z
  | S754_finite true m e => (-1, - e, Z.neg m)%Z
  | S754_finite false m e => (1, e, Z.pos m)%Z
  end.

Definition lexCompare (a b : Z * Z * Z) : comparison :=
  match (fst (fst a) ?= fst (fst b))%Z with
  | Eq =>
      match (snd (fst a) ?= snd (fst b))%Z with
      | Eq => (snd a ?= snd b)%Z
      | c => c
      end
  | c => c
  end.

(** * Comparisons of binary64 numbers

    [<] and [<=] on [Real]s are IEEE comparisons: false as soon as one side
    is NaN.  The facts below are read off the specification of the
    primitive comparisons. *)
Section FloatComparisons.

Lemma SFcompare_swap (x y : spec_float) :
  SFcompare y x = option_map CompOpp (SFcompare x y).
Proof.
  destruct x as [sx|sx| |sx mx ex], y as [sy|sy| |sy my ey];
    try destruct sx; try destruct sy; cbn; try reflexivity;
    rewrite (Z.compare_antisym ex ey);
    destruct (ex ?= ey)%Z; cbn; try reflexivity;
    rewrite (eq_sym (Pos.compare_cont_antisym mx my Eq) : Pos.compare_cont Eq my mx = _);
    try reflexivity; now rewrite CompOpp_involutive.
Qed.

Lemma SFcompare_diag (x : spec_float) :
  x <> S754_nan -> SFcompare x x = Some Eq.
Proof.
  destruct x as [sx|sx| |sx mx ex]; try destruct sx; cbn;
    try reflexivity; try congruence; intros _;
    now rewrite Z.compare_refl, Pos.compare_cont_refl.
Qed.

Lemma Real_ltb_not_nan_l (x y : Real) :
  (x <? y)%float = true -> is_nan x = false.
Proof.
  rewrite FloatAxioms.ltb_spec. unfold SFltb, is_nan. intros Hlt.
  rewrite FloatAxioms.eqb_spec. unfold SFeqb.
  rewrite SFcompare_diag; [reflexivity|].
  intros Hnan. rewrite Hnan in Hlt. discriminate.
Qed.

Lemma Real_ltb_not_nan_r (x y : Real) :
  (x <? y)%float = true -> is_nan y = false.
Proof.
  rewrite FloatAxioms.ltb_spec. unfold SFltb, is_nan. intros Hlt.
  rewrite FloatAxioms.eqb_spec. unfold SFeqb.
  rewrite SFcompare_diag; [reflexivity|].
  intros Hnan. rewrite Hnan in Hlt.
  destruct (Prim2SF x); discriminate.
Qed.

Lemma Real_ltb_asym (x y : Real) :
  (x <? y)%float = true -> (y <? x)%float = false.
Proof.
  rewrite !FloatAxioms.ltb_spec. unfold SFltb.
  rewrite (SFcompare_swap (Prim2SF x) (Prim2SF y)).
  destruct (SFcompare (Prim2SF x) (Prim2SF y)) as [[]|]; cbn; congruence.
Qed.

Lemma Real_leb_not_ltb (x y : Real) :
  (x <=? y)%float = true -> (y <? x)%float = false.
Proof.
  rewrite FloatAxioms.leb_spec, FloatAxioms.ltb_spec. unfold SFleb, SFltb.
  rewrite (SFcompare_swap (Prim2SF x) (Prim2SF y)).
  destruct (SFcompare (Prim2SF x) (Prim2SF y)) as [[]|]; cbn; congruence.
Qed.

(** The clamp of the improvement branch: the grown step is the doubled
    step or 1, and is never above 1. *)
Lemma growStep_clamped (s : Real) :
  (1 <? growStep s)%float = false
  /\ (growStep s = (s * 2)%float \/ growStep s = 1%float).
Proof.
  unfold growStep. destruct (1 <? s * 2)%float eqn:Hgt.
  - split; [reflexivity | now right].
  - split; [exact Hgt | now left].
Qed.

Lemma SFcompare_key (x y : spec_float) :
  x <> S754_nan -> y <> S754_nan ->
  SFcompare x y = Some (lexCompare (SFkey x) (SFkey y)).
Proof.
  intros Hx Hy.
  destruct x as [sx|sx| |sx mx ex], y as [sy|sy| |sy my ey];
    try congruence; try destruct sx; try destruct sy; try reflexivity;
    unfold SFcompare, SFkey, lexCompare; cbn [fst snd Z.compare Pos.compare];
    f_equal.
  cbn [CompOpp Pos.compare Pos.compare_cont].
  rewrite Z.compare_opp, (Z.compare_antisym ex ey).
  destruct (ex ?= ey)%Z; reflexivity.
Qed.

Lemma lexCompare_trans (a b c : Z * Z * Z) :
  lexCompare a b <> Gt -> lexCompare b c <> Gt -> lexCompare a c <> Gt.
Proof.
  destruct a as [[a1 a2] a3], b as [[b1 b2] b3], c as [[c1 c2] c3].
  unfold lexCompare. cbn [fst snd].
  destruct (Z.compare_spec a1 b1), (Z.compare_spec b1 c1),
    (Z.compare_spec a1 c1); try lia; try congruence;
    destruct (Z.compare_spec a2 b2), (Z.compare_spec b2 c2),
      (Z.compare_spec a2 c2); try lia; try congruence;
    destruct (Z.compare_spec a3 b3), (Z.compare_spec b3 c3),
      (Z.compare_spec a3 c3); try lia; congruence.
Qed.

Lemma Real_not_nan (x : Real) : is_nan x = false -> Prim2SF x <> S754_nan.
Proof.
  unfold is_nan. rewrite FloatAxioms.eqb_spec. unfold SFeqb.
  intros Hx Hnan. rewrite Hnan in Hx. discriminate.
Qed.

Lemma Real_leb_not_nan (x y : Real) :
  (x <=? y)%float = true -> is_nan x = false /\ is_nan y = false.
Proof.
  rewrite FloatAxioms.leb_spec. unfold SFleb, is_nan. intros Hle.
  rewrite !FloatAxioms.eqb_spec. unfold SFeqb.
  rewrite !SFcompare_diag; [split; reflexivity | |];
    intros Hnan; rewrite Hnan in Hle;
    [destruct (Prim2SF x)|]; discriminate.
Qed.

Lemma Real_leb_refl (x : Real) : is_nan x = false -> (x <=? x)%float = true.
Proof.
  intros Hx. rewrite FloatAxioms.leb_spec. unfold SFleb.
  now rewrite (SFcompare_diag _ (Real_not_nan x Hx)).
Qed.

Lemma Real_ltb_leb (x y : Real) :
  (x <? y)%float = true -> (x <=? y)%float = true.
Proof.
  rewrite FloatAxioms.ltb_spec, FloatAxioms.leb_spec. unfold SFltb, SFleb.
  destruct (SFcompare (Prim2SF x) (Prim2SF y)) as [[]|]; congruence.
Qed.

Lemma Real_leb_key (x y : Real) :
  is_nan x = false -> is_nan y = false ->
  (x <=? y)%float = true
  <-> lexCompare (SFkey (Prim2SF x)) (SFkey (Prim2SF y)) <> Gt.
Proof.
  intros Hx Hy. rewrite FloatAxioms.leb_spec. unfold SFleb.
  rewrite (SFcompare_key _ _ (Real_not_nan x Hx) (Real_not_nan y Hy)).
  destruct (lexCompare _ _); split; congruence.
Qed.

Lemma Real_leb_trans (x y z : Real) :
  (x <=? y)%float = true -> (y <=? z)%float = true -> (x <=? z)%float = true.
Proof.
  intros Hxy Hyz.
  destruct (Real_leb_not_nan x y Hxy) as [Hx Hy].
  destruct (Real_leb_not_nan y z Hyz) as [_ Hz].
  apply (Real_leb_key x z Hx Hz).
  apply (lexCompare_trans _ (SFkey (Prim2SF y))).
  - now apply (Real_leb_key x y Hx Hy).
  - now apply (Real_leb_key y z Hy Hz).
Qed.

(** Of two numbers that are not NaN, the first is at most the second
    unless the second is below it. *)
Lemma Real_not_ltb_leb (x y : Real) :
  is_nan x = false -> is_nan y = false ->
  (y <? x)%float = false -> (x <=? y)%float = true.
Proof.
  intros Hx Hy. rewrite FloatAxioms.ltb_spec, FloatAxioms.leb_spec.
  unfold SFltb, SFleb.
  rewrite (SFcompare_swap (Prim2SF y) (Prim2SF x)).
  rewrite (SFcompare_key _ _ (Real_not_nan y Hy) (Real_not_nan x Hx)).
  destruct (lexCompare _ _); cbn; congruence.
Qed.

(** A comparison with NaN on either side is false. *)
Lemma Real_ltb_nan (x y : Real) :
  is_nan x = true \/ is_nan y = true -> (x <? y)%float = false.
Proof.
  intros Hnan. destruct (x <? y)%float eqn:Hlt; [|reflexivity].
  rewrite (Real_ltb_not_nan_l _ _ Hlt), (Real_ltb_not_nan_r _ _ Hlt) in Hnan.
  destruct Hnan; discriminate.
Qed.


End FloatComparisons.

(** * Properties *)

Section Properties.

Context {FF : Type} {forceFields : ForceFieldInterface FF}.
Context {R : Type} {random : RandomSource R}.

Implicit Types (d : MoleculeGeometryOptimizerPrivate (FF := FF) (R := R)).
Implicit Types (st : LineSearch (R := R)).
Implicit Types (c : CartesianCoordinates).

(** ** Loops over atom indices *)

Lemma fold_left_invariant {A B : Type} (P : A -> Prop) (f : A -> B -> A)
    (l : list B) (a : A) :
  P a -> (forall a b, P a -> P (f a b)) -> P (fold_left f l a).
Proof.
  intros Ha Hf. revert a Ha.
  induction l as [|b l IH]; intros a Ha; simpl; auto.
Qed.

Lemma moveAtoms_length (ff : FF) c (gradient : list Vector3) (s : Real) :
  length (moveAtoms ff c gradient s) = length c.
Proof.
  unfold moveAtoms.
  apply (fold_left_invariant (fun c' : CartesianCoordinates => length c' = length c));
    [reflexivity|].
  intros a i Ha.
  destruct (a !! i); [destruct (gradient !! i)|]; try assumption.
  now rewrite length_insert.
Qed.

(** What the move loop leaves at index [i], for a loop over [n] atoms. *)
Lemma moveAtoms_fold_lookup (gradient : list Vector3) (s : Real) (n : nat)
    c (i : nat) :
  fold_left
    (fun (c : CartesianCoordinates) (atomIndex : nat) =>
       match c !! atomIndex, gradient !! atomIndex with
       | Some p, Some g => <[atomIndex := vadd p (vscale (vneg g) s)]> c
       | _, _ => c
       end) (seq 0 n) c !! i
  = if decide (i < n)%nat
    then match c !! i, gradient !! i with
         | Some p, Some g => Some (vadd p (vscale (vneg g) s))
         | _, _ => c !! i
         end
    else c !! i.
Proof.
  revert i. induction n as [|n IH]; intros i.
  - simpl. destruct (decide (i < 0)%nat); [lia | reflexivity].
  - rewrite seq_S, fold_left_app. cbn [fold_left Nat.add].
    set (acc := fold_left _ (seq 0 n) c) in *.
    assert (Hn : acc !! n = c !! n).
    { rewrite IH. destruct (decide (n < n)%nat); [lia | reflexivity]. }
    rewrite Hn.
    destruct (decide (i = n)) as [->|Hne].
    + destruct (decide (n < S n)%nat); [|lia].
      destruct (c !! n) as [p|] eqn:Hp; [destruct (gradient !! n) as [g|]|];
        try (rewrite Hn; reflexivity).
      rewrite list_lookup_insert_eq; [reflexivity|].
      apply lookup_lt_Some in Hn. exact Hn.
    + assert (Hi : (match c !! n, gradient !! n with
                    | Some p, Some g => <[n := vadd p (vscale (vneg g) s)]> acc
                    | _, _ => acc
                    end) !! i = acc !! i).
      { destruct (c !! n); [destruct (gradient !! n)|]; try reflexivity.
        apply list_lookup_insert_ne. congruence. }
      rewrite Hi, IH.
      destruct (decide (i < n)%nat), (decide (i < S n)%nat); try lia; reflexivity.
Qed.

Lemma moveAtoms_lookup (ff : FF) c (gradient : list Vector3) (s : Real)
    (i : nat) (p : Point3) (g : Vector3) :
  (Z.of_nat i < ff_atomCount ff)%Z ->
  c !! i = Some p -> gradient !! i = Some g ->
  moveAtoms ff c gradient s !! i = Some (vadd p (vscale (vneg g) s)).
Proof.
  intros Hi Hp Hg. unfold moveAtoms.
  rewrite moveAtoms_fold_lookup, Hp, Hg.
  destruct (decide (i < Z.to_nat (ff_atomCount ff))%nat); [reflexivity | lia].
Qed.

Lemma moveAtoms_lookup_beyond (ff : FF) c (gradient : list Vector3)
    (s : Real) (i : nat) :
  (ff_atomCount ff <= Z.of_nat i)%Z ->
  moveAtoms ff c gradient s !! i = c !! i.
Proof.
  intros Hi. unfold moveAtoms. rewrite moveAtoms_fold_lookup.
  destruct (decide (i < Z.to_nat (ff_atomCount ff))%nat); [lia | reflexivity].
Qed.

(** The wiggle loop over the indices [a, a + n). *)
Lemma wiggle_fold_spec (init : CartesianCoordinates) (n : nat) :
  forall (a : nat) c (r : R),
    length c = length init ->
    let res := fold_left (wiggleAtom init) (seq a n) (c, r) in
    length (fst res) = length init
    /\ snd res = snd (randomUnits n r)
    /\ (forall i, (i < a \/ a + n <= i)%nat -> fst res !! i = c !! i)
    /\ (forall i p u,
          (a <= i < a + n)%nat -> init !! i = Some p ->
          fst (randomUnits n r) !! (i - a)%nat = Some u ->
          fst res !! i = Some (vadd p u)).
Proof.
  induction n as [|n IH]; intros a c r Hlen; cbn [seq fold_left randomUnits].
  - cbn. repeat split; auto. intros i p u Hi. lia.
  - destruct (Vector3_Random_normalized r) as [u0 r'] eqn:Hdraw.
    destruct (randomUnits n r') as [us r''] eqn:Hus.
    set (c1 := match init !! a with
               | Some position => <[a := vadd position u0]> c
               | None => c
               end).
    assert (Hc1 : length c1 = length init).
    { subst c1. destruct (init !! a); [rewrite length_insert|]; exact Hlen. }
    assert (Hstep : wiggleAtom init (c, r) a = (c1, r')).
    { unfold wiggleAtom. cbn [fst snd]. rewrite Hdraw. subst c1.
      destruct (init !! a); reflexivity. }
    rewrite Hstep.
    destruct (IH (S a) c1 r' Hc1) as (Hl & Hr & Hout & Hin).
    rewrite Hus in Hr, Hin. cbn [fst snd] in *.
    repeat split.
    + exact Hl.
    + exact Hr.
    + intros i Hi. rewrite Hout by lia. subst c1.
      destruct (init !! a); [|reflexivity].
      apply list_lookup_insert_ne. lia.
    + intros i p u Hi Hp Hu.
      destruct (decide (i = a)) as [->|Hne].
      * rewrite Nat.sub_diag in Hu. cbn in Hu. injection Hu as <-.
        rewrite Hout by lia. subst c1. rewrite Hp.
        apply list_lookup_insert_eq. rewrite Hlen.
        apply lookup_lt_Some in Hp. exact Hp.
      * apply Hin; [lia | exact Hp |].
        replace (i - a)%nat with (S (i - S a)) in Hu by lia. exact Hu.
Qed.

Lemma wiggle_spec (ff : FF) (init c : CartesianCoordinates) (r : R) :
  length c = length init ->
  let n := Z.to_nat (ff_atomCount ff) in
  length (fst (wiggle ff init c r)) = length init
  /\ snd (wiggle ff init c r) = snd (randomUnits n r)
  /\ (forall i, (n <= i)%nat -> fst (wiggle ff init c r) !! i = c !! i)
  /\ (forall i p u,
        (i < n)%nat -> init !! i = Some p ->
        fst (randomUnits n r) !! i = Some u ->
        fst (wiggle ff init c r) !! i = Some (vadd p u)).
Proof.
  intros Hlen n. unfold wiggle.
  destruct (wiggle_fold_spec init n 0 c r Hlen) as (Hl & Hr & Hout & Hin).
  split; [exact Hl|]. split; [exact Hr|]. split.
  - intros i Hi. apply Hout. lia.
  - intros i p u Hi Hp Hu. apply (Hin i p u); [lia | exact Hp |].
    now rewrite Nat.sub_0_r.
Qed.

(** Every draw of [randomUnits] is there: [n] vectors for [n] atoms. *)
Lemma randomUnits_length (n : nat) (r : R) :
  length (fst (randomUnits n r)) = n.
Proof.
  revert r. induction n as [|n IH]; intros r; cbn [randomUnits]; [reflexivity|].
  destruct (Vector3_Random_normalized r) as [u r'].
  specialize (IH r'). destruct (randomUnits n r') as [us r''].
  cbn in *. now rewrite IH.
Qed.

(** Whatever holds of every value of the random source (unit length, for
    Eigen's [normalized()]) holds of every draw. *)
Lemma randomUnits_all (P : Vector3 -> Prop) :
  (forall r : R, P (fst (Vector3_Random_normalized r))) ->
  forall (n : nat) (r : R) (i : nat) (u : Vector3),
    fst (randomUnits n r) !! i = Some u -> P u.
Proof.
  intros HP. induction n as [|n IH]; intros r i u; cbn [randomUnits].
  - cbn. discriminate.
  - pose proof (HP r) as Hr.
    destruct (Vector3_Random_normalized r) as [u0 r'].
    specialize (IH r'). destruct (randomUnits n r') as [us r''].
    cbn [fst] in *. destruct i as [|i]; cbn.
    + now intros [= <-].
    + apply IH.
Qed.

(** ** One pass of the line search *)

Lemma lineSearchBody_length (ff : FF) st :
  length (ls_coordinates (snd (lineSearchBody ff st)))
  = length (ls_coordinates st).
Proof.
  unfold lineSearchBody.
  pose proof (moveAtoms_length ff (ls_coordinates st) (ls_gradient st)
                (ls_step st)) as Hmove.
  destruct (is_nan _).
  - destruct (wiggle_spec ff (ls_coordinates st) _ (ls_rand st) Hmove)
      as (Hl & _).
    destruct (wiggle ff _ _ _) as [c r]. exact Hl.
  - destruct (_ && _); [exact Hmove|].
    destruct (_ <? _)%float; [exact Hmove|].
    destruct (_ <? _)%float; [reflexivity | exact Hmove].
Qed.

Lemma lineSearch_length (ff : FF) (count : nat) st :
  length (ls_coordinates (fst (lineSearch ff count st)))
  = length (ls_coordinates st).
Proof.
  revert st. induction count as [|count IH]; intros st; cbn [lineSearch];
    [reflexivity|].
  pose proof (lineSearchBody_length ff st) as Hb.
  destruct (lineSearchBody ff st) as [[|] st']; cbn [fst snd] in *.
  - specialize (IH st'). destruct (lineSearch ff count st') as [st'' n].
    cbn [fst] in *. congruence.
  - exact Hb.
Qed.

(** The loop makes at least one and at most [count] passes. *)
Lemma lineSearch_passes (ff : FF) (count : nat) st :
  (snd (lineSearch ff count st) <= count)%nat
  /\ (0 < count -> 0 < snd (lineSearch ff count st))%nat.
Proof.
  revert st. induction count as [|count IH]; intros st; cbn [lineSearch].
  - cbn. lia.
  - destruct (lineSearchBody ff st) as [[|] st']; cbn [snd].
    + specialize (IH st'). destruct (lineSearch ff count st') as [st'' n].
      cbn [snd] in *. lia.
    + lia.
Qed.

(** C2. In one pass of the line search of [step()], when the energy after
    the tentative move is NaN: every atom of the force field is put at its
    saved position plus one vector drawn from
    [Vector3::Random().normalized()] (a fresh draw per atom, of unit length
    as far as every value of that call is), atoms beyond the force field's
    count stay where they were saved, the gradient is taken anew at these
    coordinates, the pass ends with the step size and [initialEnergy] as
    they were and the loop goes on; [step()] itself only ever answers with
    the rms-gradient test and leaves the error string alone. *)
Theorem nan_energy_wiggles_and_retries (ff : FF) st :
  is_nan (finalEnergy ff st) = true ->
  let n := Z.to_nat (ff_atomCount ff) in
  exists st',
    lineSearchBody ff st = (Continue, st')
    /\ (forall i p,
          (i < n)%nat -> ls_coordinates st !! i = Some p ->
          exists u : Vector3,
            fst (randomUnits n (ls_rand st)) !! i = Some u
            /\ ls_coordinates st' !! i = Some (vadd p u)
            /\ forall P : Vector3 -> Prop,
                 (forall r : R, P (fst (Vector3_Random_normalized r))) ->
                 P u)
    /\ (forall i, (n <= i)%nat ->
          ls_coordinates st' !! i = ls_coordinates st !! i)
    /\ length (ls_coordinates st') = length (ls_coordinates st)
    /\ ls_rand st' = snd (randomUnits n (ls_rand st))
    /\ ls_gradient st' = ff_gradient ff (ls_coordinates st')
    /\ ls_step st' = ls_step st
    /\ ls_initialEnergy st' = ls_initialEnergy st
    /\ (forall d,
          errorString (snd (step d)) = errorString d
          /\ (fst (step d) = true ->
              exists ff', forceField d = Some ff'
                /\ (ff_rmsg ff' (coordinates (snd (step d)))
                      <? converganceValue)%float = true)).
Proof.
  intros Hnan n. unfold finalEnergy, movedCoordinates in Hnan.
  pose proof (moveAtoms_length ff (ls_coordinates st) (ls_gradient st)
                (ls_step st)) as Hmove.
  destruct (wiggle_spec ff (ls_coordinates st) _ (ls_rand st) Hmove)
    as (Hl & Hr & Hout & Hin).
  unfold lineSearchBody. rewrite Hnan.
  destruct (wiggle ff _ _ _) as [c r]. cbn [fst snd] in *.
  eexists. split; [reflexivity|]. cbn [ls_coordinates ls_rand ls_gradient
                                       ls_step ls_initialEnergy].
  split.
  { intros i p Hi Hp.
    destruct (lookup_lt_is_Some_2 (fst (randomUnits n (ls_rand st))) i)
      as [u Hu]; [now rewrite randomUnits_length|].
    exists u. split; [exact Hu|]. split; [exact (Hin i p u Hi Hp Hu)|].
    intros P HP. exact (randomUnits_all P HP n (ls_rand st) i u Hu). }
  split.
  { intros i Hi. rewrite Hout by exact Hi.
    apply moveAtoms_lookup_beyond. lia. }
  split; [exact Hl|]. split; [exact Hr|].
  split; [reflexivity|]. split; [reflexivity|]. split; [reflexivity|].
  intros d. unfold step.
  destruct (molecule d); [destruct (forceField d) as [ff'|]|]; cbn [fst snd];
    (split; [reflexivity|]); try discriminate.
  intros Hconv. exists ff'. split; [reflexivity | exact Hconv].
Qed.

(** C3. In one pass of the line search of [step()], when the energy after
    the tentative move is below [initialEnergy]: if the absolute change is
    at least the tolerance 1e-5, the step size is doubled and clamped (it
    is the doubled step or 1, never above 1), [finalEnergy] becomes
    [initialEnergy], the moved coordinates are kept (each atom at its
    position minus its gradient times the step) and the gradient is the
    one already held; if the change is below 1e-5 the loop ends with this
    pass, whatever number of passes was left. *)
Theorem improvement_doubles_step_or_stops (ff : FF) st :
  (finalEnergy ff st <? ls_initialEnergy st)%float = true ->
  ((stepConv <=? abs (finalEnergy ff st - ls_initialEnergy st))%float = true ->
   exists st',
     lineSearchBody ff st = (Continue, st')
     /\ ls_step st' = growStep (ls_step st)
     /\ (ls_step st' = (ls_step st * 2)%float \/ ls_step st' = 1%float)
     /\ (1 <? ls_step st')%float = false
     /\ ls_initialEnergy st' = finalEnergy ff st
     /\ ls_coordinates st' = movedCoordinates ff st
     /\ (forall i p g,
           (Z.of_nat i < ff_atomCount ff)%Z ->
           ls_coordinates st !! i = Some p -> ls_gradient st !! i = Some g ->
           ls_coordinates st' !! i
           = Some (vadd p (vscale (vneg g) (ls_step st))))
     /\ ls_gradient st' = ls_gradient st)
  /\ ((abs (finalEnergy ff st - ls_initialEnergy st) <? stepConv)%float = true ->
      exists st',
        lineSearchBody ff st = (Break, st')
        /\ ls_coordinates st' = movedCoordinates ff st
        /\ forall remaining : nat,
             lineSearch ff (S remaining) st = (st', 1%nat)).
Proof.
  intros Hlt. pose proof (Real_ltb_not_nan_l _ _ Hlt) as Hnan.
  unfold finalEnergy, movedCoordinates in *. split.
  - intros Hbig. apply Real_leb_not_ltb in Hbig.
    unfold lineSearchBody. rewrite Hnan, Hlt, Hbig. cbn [andb].
    eexists. split; [reflexivity|].
    cbn [ls_coordinates ls_rand ls_gradient ls_step ls_initialEnergy].
    destruct (growStep_clamped (ls_step st)) as (Hle & Hcases).
    repeat (split; [first [reflexivity | assumption]|]).
    split; [|reflexivity].
    intros i p g Hi Hp Hg. now apply moveAtoms_lookup.
  - intros Hsmall.
    assert (Hbody : lineSearchBody ff st
                    = (Break,
                       mkLineSearch
                         (moveAtoms ff (ls_coordinates st) (ls_gradient st)
                            (ls_step st))
                         (ls_rand st) (ls_step st) (ls_initialEnergy st)
                         (ls_gradient st))).
    { unfold lineSearchBody. rewrite Hnan, Hlt, Hsmall. reflexivity. }
    eexists. split; [exact Hbody|]. split; [reflexivity|].
    intros remaining. cbn [lineSearch]. now rewrite Hbody.
Qed.

(** ** Step sizes within one call of [step()] *)

Lemma lineSearchBody_step_cases (ff : FF) st :
  let s' := ls_step (snd (lineSearchBody ff st)) in
  s' = ls_step st \/ s' = growStep (ls_step st) \/ s' = shrinkStep (ls_step st).
Proof.
  unfold lineSearchBody. destruct (is_nan _).
  - destruct (wiggle ff _ _ _). now left.
  - destruct (_ && _); [now left|].
    destruct (_ <? _)%float; [right; now left|].
    destruct (_ <? _)%float; [right; now right | now left].
Qed.

Lemma reachableSteps_next (k : nat) (s s' : Real) :
  In s (reachableSteps k) ->
  s' = s \/ s' = growStep s \/ s' = shrinkStep s ->
  In s' (reachableSteps (S k)).
Proof.
  intros Hin Hs'. cbn [reachableSteps]. apply in_flat_map.
  exists s. split; [exact Hin|]. cbn. intuition auto.
Qed.

Lemma reachableSteps_le (j k : nat) (s : Real) :
  (j <= k)%nat -> In s (reachableSteps j) -> In s (reachableSteps k).
Proof.
  induction 1 as [|k Hle IH]; intros Hin; [exact Hin|].
  apply (reachableSteps_next k s s); auto.
Qed.

Lemma afterPasses_step_reachable (ff : FF) (k : nat) :
  forall (j : nat) st,
    In (ls_step st) (reachableSteps j) ->
    In (ls_step (afterPasses ff k st)) (reachableSteps (j + k)).
Proof.
  unfold afterPasses.
  induction k as [|k IH]; intros j st Hin; cbn [lineSearch].
  - cbn [fst]. now rewrite Nat.add_0_r.
  - pose proof (lineSearchBody_step_cases ff st) as Hcases.
    destruct (lineSearchBody ff st) as [[|] st']; cbn [fst snd] in *.
    + specialize (IH (S j) st' (reachableSteps_next j _ _ Hin Hcases)).
      destruct (lineSearch ff k st') as [st'' n]. cbn [fst] in *.
      now replace (j + S k)%nat with (S j + k)%nat by lia.
    + apply (reachableSteps_le (S j)); [lia|].
      exact (reachableSteps_next j _ _ Hin Hcases).
Qed.

(** Every step size reachable in [stepCount] passes is positive and not
    below [stepFloor]: a finite check. *)
Lemma reachableSteps_floor (s : Real) :
  In s (reachableSteps stepCount) ->
  (0 <? s)%float = true /\ (s <? stepFloor)%float = false.
Proof.
  assert (Hall : forallb (fun s => (0 <? s)%float && negb (s <? stepFloor)%float)
                   (reachableSteps stepCount) = true)
    by (vm_compute; reflexivity).
  intros Hin. rewrite forallb_forall in Hall. specialize (Hall s Hin).
  apply andb_prop in Hall as [Hpos Hfloor].
  split; [exact Hpos | now apply negb_true_iff].
Qed.

Lemma step_size_floor (ff : FF) d (k : nat) :
  (k <= stepCount)%nat ->
  let s := ls_step (afterPasses ff k (lineSearchInit ff d)) in
  (0 <? s)%float = true /\ (s <? stepFloor)%float = false.
Proof.
  intros Hk s. apply reachableSteps_floor.
  apply (reachableSteps_le (0 + k)); [exact Hk|].
  apply afterPasses_step_reachable. cbn. now left.
Qed.

(** The rejection branch of a pass. *)
Lemma rejection_branch (ff : FF) st :
  (ls_initialEnergy st <? finalEnergy ff st)%float = true ->
  exists st',
    lineSearchBody ff st = (Continue, st')
    /\ ls_coordinates st' = ls_coordinates st
    /\ ls_step st' = shrinkStep (ls_step st)
    /\ ls_initialEnergy st' = ls_initialEnergy st
    /\ ls_gradient st' = ls_gradient st
    /\ ls_rand st' = ls_rand st.
Proof.
  intros Hgt. unfold finalEnergy, movedCoordinates in Hgt.
  pose proof (Real_ltb_not_nan_r _ _ Hgt) as Hnan.
  pose proof (Real_ltb_asym _ _ Hgt) as Hnlt.
  unfold lineSearchBody. rewrite Hnan, Hnlt, Hgt. cbn [andb].
  eexists. now repeat split.
Qed.

(** C4, as amended.  In one pass of the line search of [step()], when the
    energy after the tentative move is above [initialEnergy]: the
    coordinates are exactly the saved ones again, the step size is
    multiplied by 0.1 with no lower clamp, and [initialEnergy], the
    gradient and the random state are as before.  A call of [step()] starts
    from the step 0.05 and makes at most 10 passes, so within one call the
    shrunk step stays positive and never falls below [stepFloor], the
    result of ten shrinkings, about 5e-12. *)
Theorem rejection_restores_and_shrinks (ff : FF) st :
  (ls_initialEnergy st <? finalEnergy ff st)%float = true ->
  exists st',
    lineSearchBody ff st = (Continue, st')
    /\ ls_coordinates st' = ls_coordinates st
    /\ ls_step st' = (ls_step st * 0.1)%float
    /\ ls_initialEnergy st' = ls_initialEnergy st
    /\ ls_gradient st' = ls_gradient st
    /\ ls_rand st' = ls_rand st
    /\ (forall d (k : nat),
          (k < stepCount)%nat ->
          st = afterPasses ff k (lineSearchInit ff d) ->
          (0 <? ls_step st')%float = true
          /\ (ls_step st' <? stepFloor)%float = false).
Proof.
  intros Hgt. unfold finalEnergy, movedCoordinates in Hgt.
  pose proof (Real_ltb_not_nan_r _ _ Hgt) as Hnan.
  pose proof (Real_ltb_asym _ _ Hgt) as Hnlt.
  unfold lineSearchBody. rewrite Hnan, Hnlt, Hgt. cbn [andb].
  eexists. split; [reflexivity|].
  cbn [ls_coordinates ls_rand ls_gradient ls_step ls_initialEnergy].
  repeat (split; [reflexivity|]).
  intros d k Hk ->. apply reachableSteps_floor.
  apply (reachableSteps_le (S (0 + k))); [unfold stepCount in *; lia|].
  apply (reachableSteps_next _ (ls_step (afterPasses ff k (lineSearchInit ff d))));
    [|right; now right].
  apply afterPasses_step_reachable. cbn. now left.
Qed.

(** The step sizes of the tentative moves: one per pass. *)
Lemma stepSizesUsed_length (ff : FF) (count : nat) st :
  length (stepSizesUsed ff count st) = snd (lineSearch ff count st).
Proof.
  revert st.
  induction count as [|count IH]; intros st;
    cbn [stepSizesUsed lineSearch]; [reflexivity|].
  destruct (lineSearchBody ff st) as [[|] st']; [|reflexivity].
  specialize (IH st'). destruct (lineSearch ff count st') as [st'' n].
  cbn [snd length] in *. now rewrite IH.
Qed.

(** ** The checked loops and the total ones *)

Lemma fold_left_checked_None {A B : Type} (fc : option A -> B -> option A)
    (l : list B) :
  (forall b, fc None b = None) -> fold_left fc l None = None.
Proof.
  intros Hnone. induction l as [|b l IH]; cbn [fold_left]; [reflexivity|].
  now rewrite Hnone.
Qed.

(** Where a checked loop gives a result, the total loop gives the same. *)
Lemma fold_left_checked_Some {A B : Type} (f : A -> B -> A)
    (fc : option A -> B -> option A) (l : list B) :
  (forall b, fc None b = None) ->
  (forall a b a', fc (Some a) b = Some a' -> f a b = a') ->
  forall a a', fold_left fc l (Some a) = Some a' -> fold_left f l a = a'.
Proof.
  intros Hnone Hsome. induction l as [|b l IH]; intros a a';
    cbn [fold_left].
  - now intros [= <-].
  - destruct (fc (Some a) b) as [a1|] eqn:Hstep.
    + rewrite (Hsome a b a1 Hstep). apply IH.
    + now rewrite (fold_left_checked_None fc l Hnone).
Qed.

(** A checked loop gives a result when each of its passes does, which an
    invariant of the loop may be needed to see. *)
Lemma fold_left_checked_defined {A B : Type} (Inv : A -> Prop)
    (f : A -> B -> A) (fc : option A -> B -> option A) (l : list B) :
  (forall a b,
     Inv a -> In b l -> fc (Some a) b = Some (f a b) /\ Inv (f a b)) ->
  forall a, Inv a ->
    fold_left fc l (Some a) = Some (fold_left f l a)
    /\ Inv (fold_left f l a).
Proof.
  induction l as [|b l IH]; intros Hpass a Ha; cbn [fold_left];
    [now split|].
  destruct (Hpass a b Ha (or_introl eq_refl)) as [-> Hnext].
  apply IH; [|exact Hnext].
  intros a1 b1 Ha1 Hb1. apply Hpass; [exact Ha1 | now right].
Qed.

Lemma moveAtomsChecked_Some (ff : FF) c (gradient : list Vector3)
    (s : Real) (moved : CartesianCoordinates) :
  moveAtomsChecked ff c gradient s = Some moved ->
  moveAtoms ff c gradient s = moved.
Proof.
  unfold moveAtomsChecked, moveAtoms.
  apply fold_left_checked_Some; [reflexivity|].
  intros a i a'.
  destruct (a !! i); [destruct (gradient !! i)|]; congruence.
Qed.

Lemma moveAtomsChecked_defined (ff : FF) c (gradient : list Vector3)
    (s : Real) :
  (Z.to_nat (ff_atomCount ff) <= length c)%nat ->
  (Z.to_nat (ff_atomCount ff) <= length gradient)%nat ->
  moveAtomsChecked ff c gradient s = Some (moveAtoms ff c gradient s).
Proof.
  intros Hc Hg. unfold moveAtomsChecked, moveAtoms.
  apply (fold_left_checked_defined
           (fun c' : CartesianCoordinates =>
              (Z.to_nat (ff_atomCount ff) <= length c')%nat));
    [|exact Hc].
  intros a i Ha Hi. apply in_seq in Hi.
  destruct (lookup_lt_is_Some_2 a i ltac:(lia)) as [p ->].
  destruct (lookup_lt_is_Some_2 gradient i ltac:(lia)) as [g ->].
  split; [reflexivity | now rewrite length_insert].
Qed.

Lemma wiggleChecked_Some (ff : FF) (init c : CartesianCoordinates) (r : R)
    (cr : CartesianCoordinates * R) :
  wiggleChecked ff init c r = Some cr -> wiggle ff init c r = cr.
Proof.
  unfold wiggleChecked, wiggle.
  apply fold_left_checked_Some; [reflexivity|].
  intros a i a'. unfold wiggleAtomChecked, wiggleAtom.
  destruct (init !! i); [destruct (a.1 !! i)|];
    destruct (Vector3_Random_normalized a.2); congruence.
Qed.

Lemma wiggleChecked_defined (ff : FF) (init c : CartesianCoordinates) (r : R) :
  (Z.to_nat (ff_atomCount ff) <= length init)%nat ->
  (Z.to_nat (ff_atomCount ff) <= length c)%nat ->
  wiggleChecked ff init c r = Some (wiggle ff init c r).
Proof.
  intros Hinit Hc. unfold wiggleChecked, wiggle.
  apply (fold_left_checked_defined
           (fun cr : CartesianCoordinates * R =>
              (Z.to_nat (ff_atomCount ff) <= length cr.1)%nat));
    [|exact Hc].
  intros a i Ha Hi. apply in_seq in Hi.
  unfold wiggleAtomChecked, wiggleAtom.
  destruct (lookup_lt_is_Some_2 init i ltac:(lia)) as [p ->].
  destruct (lookup_lt_is_Some_2 a.1 i ltac:(lia)) as [q ->].
  destruct (Vector3_Random_normalized a.2) as [u r'].
  split; [reflexivity | cbn [fst]; now rewrite length_insert].
Qed.

Lemma lineSearchBodyChecked_Some (ff : FF) st
    (result : control * LineSearch) :
  lineSearchBodyChecked ff st = Some result -> lineSearchBody ff st = result.
Proof.
  unfold lineSearchBodyChecked, lineSearchBody.
  destruct (moveAtomsChecked ff _ _ _) as [moved|] eqn:Hmove; [|discriminate].
  rewrite (moveAtomsChecked_Some _ _ _ _ _ Hmove).
  destruct (is_nan _).
  - destruct (wiggleChecked ff _ _ _) as [[c r]|] eqn:Hwiggle; [|discriminate].
    rewrite (wiggleChecked_Some _ _ _ _ _ Hwiggle). congruence.
  - destruct (_ && _); [congruence|].
    destruct (_ <? _)%float; [congruence|].
    destruct (_ <? _)%float; congruence.
Qed.

(** With an entry for each atom in the coordinates and in the gradient,
    a pass stays within its containers, and leaves them so. *)
Lemma lineSearchBodyChecked_defined (ff : FF) st :
  coversAtoms ff (ls_coordinates st) (ls_gradient st) ->
  lineSearchBodyChecked ff st = Some (lineSearchBody ff st)
  /\ coversAtoms ff (ls_coordinates (snd (lineSearchBody ff st)))
                 (ls_gradient (snd (lineSearchBody ff st))).
Proof.
  intros (Hc & Hg & Hgrad).
  pose proof (lineSearchBody_length ff st) as Hlen.
  split.
  - unfold lineSearchBodyChecked, lineSearchBody.
    rewrite (moveAtomsChecked_defined ff _ _ _ Hc Hg).
    destruct (is_nan _).
    + rewrite (wiggleChecked_defined ff _ _ _ Hc)
        by now rewrite moveAtoms_length.
      now destruct (wiggle ff _ _ _).
    + destruct (_ && _); [reflexivity|].
      destruct (_ <? _)%float; [reflexivity|].
      now destruct (_ <? _)%float.
  - split; [now rewrite Hlen|]. split.
    + revert Hlen. unfold lineSearchBody. destruct (is_nan _).
      * destruct (wiggle ff _ _ _) as [c r]. cbn [snd ls_coordinates ls_gradient].
        intros Hlen. now apply Hgrad.
      * destruct (_ && _); [intros _; exact Hg|].
        destruct (_ <? _)%float; [intros _; exact Hg|].
        destruct (_ <? _)%float; intros _; exact Hg.
    + intros c' Hc'. apply Hgrad. now rewrite Hc', Hlen.
Qed.

Lemma lineSearchChecked_Some (ff : FF) (count : nat) st
    (result : LineSearch * nat) :
  lineSearchChecked ff count st = Some result ->
  lineSearch ff count st = result.
Proof.
  revert st result. induction count as [|count IH]; intros st result;
    cbn [lineSearchChecked lineSearch]; [congruence|].
  destruct (lineSearchBodyChecked ff st) as [[[|] st1]|] eqn:Hbody;
    [| |discriminate];
    rewrite (lineSearchBodyChecked_Some _ _ _ Hbody); [|congruence].
  destruct (lineSearchChecked ff count st1) as [[st2 n]|] eqn:Hrest;
    [|discriminate].
  rewrite (IH _ _ Hrest). congruence.
Qed.

Lemma lineSearchChecked_defined (ff : FF) (count : nat) st :
  coversAtoms ff (ls_coordinates st) (ls_gradient st) ->
  lineSearchChecked ff count st = Some (lineSearch ff count st)
  /\ coversAtoms ff (ls_coordinates (fst (lineSearch ff count st)))
                 (ls_gradient (fst (lineSearch ff count st))).
Proof.
  revert st. induction count as [|count IH]; intros st Hcovers;
    cbn [lineSearchChecked lineSearch]; [now split|].
  destruct (lineSearchBodyChecked_defined ff st Hcovers) as [-> Hnext].
  destruct (lineSearchBody ff st) as [[|] st1]; cbn [snd] in Hnext.
  - destruct (IH st1 Hnext) as [-> Hlast].
    now destruct (lineSearch ff count st1) as [st2 n].
  - now split.
Qed.

Lemma stepChecked_Some d (result : bool * MoleculeGeometryOptimizerPrivate) :
  stepChecked d = Some result -> step d = result.
Proof.
  unfold stepChecked, step.
  destruct (molecule d); [destruct (forceField d) as [ff|]|];
    try congruence.
  destruct (lineSearchChecked ff _ _) as [[st n]|] eqn:Hsearch;
    [|discriminate].
  rewrite (lineSearchChecked_Some _ _ _ _ Hsearch). cbn [fst]. congruence.
Qed.

Lemma stepChecked_defined d (ff : FF) :
  forceField d = Some ff -> sessionCoversAtoms ff d ->
  stepChecked d = Some (step d)
  /\ lineSearchChecked ff stepCount (lineSearchInit ff d)
     = Some (lineSearch ff stepCount (lineSearchInit ff d))
  /\ sessionCoversAtoms ff (snd (step d)).
Proof.
  intros Hff Hcovers.
  destruct (lineSearchChecked_defined ff stepCount (lineSearchInit ff d)
              Hcovers) as [Hsearch (Hc & _ & Hgrad)].
  split; [|split; [exact Hsearch|]].
  - unfold stepChecked, step. rewrite Hff.
    destruct (molecule d); [|reflexivity]. rewrite Hsearch.
    now destruct (lineSearch ff _ _).
  - unfold step. rewrite Hff. destruct (molecule d); [|exact Hcovers].
    cbn [snd]. unfold sessionCoversAtoms. cbn [coordinates].
    split; [exact Hc|]. split; [now apply Hgrad | exact Hgrad].
Qed.

Lemma writeAtomsChecked_Some c (m m' : Molecule) :
  writeAtomsChecked c m = Some m' -> writeAtoms c m = m'.
Proof.
  unfold writeAtomsChecked, writeAtoms.
  apply fold_left_checked_Some; [reflexivity|].
  intros a i a'. destruct (c !! i); congruence.
Qed.

Lemma writeAtomsChecked_defined c (m : Molecule) :
  (Molecule_size m <= length c)%nat ->
  writeAtomsChecked c m = Some (writeAtoms c m).
Proof.
  intros Hsize. unfold writeAtomsChecked, writeAtoms.
  apply (fold_left_checked_defined (fun _ : Molecule => True)); [|exact I].
  intros a i _ Hi. apply in_seq in Hi.
  destruct (lookup_lt_is_Some_2 c i ltac:(lia)) as [p ->]. now split.
Qed.

(** C5. Every call of [step()] on a configured session whose coordinates
    and gradients have an entry for each atom of the force field runs one
    line search that starts with the step size 0.05, whatever step size
    the call before ended with: its first tentative move uses 0.05, and so
    does the first move of the next call.  No index leaves its container,
    so the call returns, after at least one and at most 10 tentative
    moves, the rms-gradient test on the coordinates the search ends with;
    and the session it leaves is fit for the next call in the same way. *)
Theorem step_restarts_bounded_search d (m : Molecule) (ff : FF) :
  molecule d = Some m -> forceField d = Some ff ->
  sessionCoversAtoms ff d ->
  let run := lineSearch ff stepCount (lineSearchInit ff d) in
  let moves := stepSizesUsed ff stepCount (lineSearchInit ff d) in
  stepChecked d = Some (step d)
  /\ lineSearchChecked ff stepCount (lineSearchInit ff d) = Some run
  /\ sessionCoversAtoms ff (snd (step d))
  /\ head moves = Some 0.05%float
  /\ length moves = snd run
  /\ (1 <= length moves <= 10)%nat
  /\ step d
     = ((ff_rmsg ff (ls_coordinates (fst run)) <? converganceValue)%float,
        mkPrivate (molecule d) (forceField d) (forceFieldName d)
                  (errorString d) (ls_coordinates (fst run))
                  (ls_rand (fst run)))
  /\ head (stepSizesUsed ff stepCount (lineSearchInit ff (snd (step d))))
     = Some 0.05%float.
Proof.
  intros Hm Hff Hcovers run moves.
  destruct (stepChecked_defined d ff Hff Hcovers)
    as (Hreturns & Hsearch & Hnext).
  assert (Hlen : length moves = snd run) by apply stepSizesUsed_length.
  destruct (lineSearch_passes ff stepCount (lineSearchInit ff d)) as [Hle Hge].
  split; [exact Hreturns|]. split; [exact Hsearch|]. split; [exact Hnext|].
  split; [reflexivity|]. split; [exact Hlen|]. split.
  { rewrite Hlen. fold run in Hle, Hge. unfold stepCount in *. lia. }
  split; [|reflexivity].
  unfold step. now rewrite Hm, Hff.
Qed.

(** ** The session across [setup()], [step()] and the write-back *)

Lemma step_keeps_fields d :
  molecule (snd (step d)) = molecule d
  /\ forceField (snd (step d)) = forceField d
  /\ forceFieldName (snd (step d)) = forceFieldName d
  /\ errorString (snd (step d)) = errorString d
  /\ length (coordinates (snd (step d))) = length (coordinates d).
Proof.
  unfold step.
  destruct (molecule d) eqn:Hm; [destruct (forceField d) as [ff|] eqn:Hff|];
    cbn [fst snd molecule forceField forceFieldName errorString coordinates];
    rewrite ?Hm, ?Hff; repeat split.
  apply (lineSearch_length ff stepCount (lineSearchInit ff d)).
Qed.

Lemma step_report d (m : Molecule) (ff : FF) :
  molecule d = Some m -> forceField d = Some ff ->
  fst (step d)
  = (ff_rmsg ff (coordinates (snd (step d))) <? converganceValue)%float
  /\ coordinates (snd (step d))
     = ls_coordinates (afterPasses ff stepCount (lineSearchInit ff d)).
Proof.
  intros Hm Hff. unfold step, afterPasses. rewrite Hm, Hff. split; reflexivity.
Qed.

Lemma stepN_succ (k : nat) d : stepN (S k) d = snd (step (stepN k d)).
Proof.
  revert d. induction k as [|k IH]; intros d; [reflexivity|].
  change (stepN (S (S k)) d) with (stepN (S k) (snd (step d))).
  now rewrite IH.
Qed.

Lemma stepN_keeps_fields (k : nat) d :
  molecule (stepN k d) = molecule d
  /\ forceField (stepN k d) = forceField d
  /\ forceFieldName (stepN k d) = forceFieldName d
  /\ errorString (stepN k d) = errorString d
  /\ length (coordinates (stepN k d)) = length (coordinates d).
Proof.
  revert d. induction k as [|k IH]; intros d; cbn [stepN]; [repeat split|].
  destruct (IH (snd (step d))) as (-> & -> & -> & -> & ->).
  apply step_keeps_fields.
Qed.

(** The [while] loop returns exactly at the first call of [step()] that
    reports convergence, given fuel for it. *)
Lemma optimizeLoop_Some (fuel : nat) d d' :
  optimizeLoop fuel d = Some d' <->
  exists k : nat,
    (k < fuel)%nat
    /\ fst (step (stepN k d)) = true
    /\ (forall j : nat, (j < k)%nat -> fst (step (stepN j d)) = false)
    /\ d' = stepN (S k) d.
Proof.
  revert d. induction fuel as [|fuel IH]; intros d; cbn [optimizeLoop].
  - split; [discriminate|]. intros (k & Hk & _). lia.
  - destruct (step d) as [done d1] eqn:Hstep. destruct done.
    + split.
      * intros [= <-]. exists 0%nat. cbn [stepN]. rewrite Hstep.
        repeat split; [lia | intros j Hj; lia].
      * intros (k & Hk & Hconv & Hbefore & ->).
        destruct k as [|k].
        -- cbn [stepN]. now rewrite Hstep.
        -- specialize (Hbefore 0%nat ltac:(lia)). cbn [stepN] in Hbefore.
           rewrite Hstep in Hbefore. discriminate.
    + rewrite IH. split.
      * intros (k & Hk & Hconv & Hbefore & ->). exists (S k).
        cbn [stepN] in *. rewrite Hstep. cbn [snd].
        repeat split; [lia | exact Hconv |].
        intros [|j] Hj; cbn [stepN]; rewrite Hstep; [reflexivity|].
        apply Hbefore. lia.
      * intros (k & Hk & Hconv & Hbefore & ->).
        destruct k as [|k].
        -- cbn [stepN] in Hconv. rewrite Hstep in Hconv. discriminate.
        -- exists k. cbn [stepN] in *. rewrite Hstep in *. cbn [snd] in *.
           repeat split; [lia | exact Hconv |].
           intros j Hj. specialize (Hbefore (S j) ltac:(lia)).
           cbn [stepN] in Hbefore. rewrite Hstep in Hbefore. exact Hbefore.
Qed.

(** What a successful [setup()] leaves in the session. *)
Lemma setup_true d d0 :
  setup d = (true, d0) ->
  exists (m : Molecule) (created ff : FF),
    molecule d = Some m
    /\ ForceField_create (forceFieldName d) = Some created
    /\ ff_setup (ff_setMolecule created m) = (true, ff)
    /\ d0 = mkPrivate (Some m) (Some ff) (forceFieldName d) (errorString d)
                      (Molecule_coordinates m) (randState d).
Proof.
  unfold setup. destruct (molecule d) as [m|] eqn:Hm; [|discriminate].
  destruct (ForceField_create (forceFieldName d)) as [created|] eqn:Hc;
    [|discriminate].
  destruct (ff_setup (ff_setMolecule created m)) as [[|] ff] eqn:Hs;
    [|discriminate].
  intros [= <-]. exists m, created, ff. repeat split; assumption.
Qed.

(** [setup()] never touches the molecule, the force-field name or the
    random state. *)
Lemma setup_keeps_molecule d :
  molecule (snd (setup d)) = molecule d
  /\ forceFieldName (snd (setup d)) = forceFieldName d
  /\ randState (snd (setup d)) = randState d.
Proof.
  unfold setup. destruct (molecule d); [|repeat split].
  destruct (ForceField_create _); [|repeat split].
  destruct (ff_setup _) as [[|] ff]; repeat split.
Qed.

(** The write-back loop, atom by atom. *)
Lemma writeAtoms_fold_lookup c (n : nat) (m : Molecule) (i : nat) :
  atoms (fold_left
           (fun (m : Molecule) (i : nat) =>
              match c !! i with
              | Some p => Atom_setPosition m i p
              | None => m
              end) (seq 0 n) m) !! i
  = if decide (i < n)%nat
    then match c !! i with
         | Some p => (fun a => mkAtom (atomicNumber a) p) <$> atoms m !! i
         | None => atoms m !! i
         end
    else atoms m !! i.
Proof.
  revert i. induction n as [|n IH]; intros i.
  - cbn. destruct (decide (i < 0)%nat); [lia | reflexivity].
  - rewrite seq_S, fold_left_app. cbn [fold_left Nat.add].
    set (acc := fold_left _ (seq 0 n) m) in *.
    destruct (decide (i = n)) as [->|Hne].
    + destruct (decide (n < S n)%nat); [|lia].
      destruct (c !! n) as [p|].
      * unfold Atom_setPosition. cbn [atoms].
        rewrite list_lookup_alter_eq, IH.
        destruct (decide (n < n)%nat); [lia | reflexivity].
      * rewrite IH. destruct (decide (n < n)%nat); [lia | reflexivity].
    + assert (Hi : atoms (match c !! n with
                          | Some p => Atom_setPosition acc n p
                          | None => acc
                          end) !! i = atoms acc !! i).
      { destruct (c !! n); [|reflexivity].
        unfold Atom_setPosition. cbn [atoms].
        apply list_lookup_alter_ne. congruence. }
      rewrite Hi, IH.
      destruct (decide (i < n)%nat), (decide (i < S n)%nat); try lia; reflexivity.
Qed.

(** With one saved position per atom, the write-back makes the molecule's
    coordinates the session's and changes nothing else of the atoms. *)
Lemma writeAtoms_coordinates c (m : Molecule) :
  length c = Molecule_size m ->
  Molecule_coordinates (writeAtoms c m) = c
  /\ atomicNumber <$> atoms (writeAtoms c m) = atomicNumber <$> atoms m.
Proof.
  intros Hlen. unfold Molecule_coordinates, writeAtoms, Molecule_size in *.
  split; apply list_eq; intros i;
    rewrite !list_lookup_fmap, writeAtoms_fold_lookup;
    destruct (decide (i < length (atoms m))%nat) as [Hlt|Hge].
  - destruct (lookup_lt_is_Some_2 c i ltac:(lia)) as [p Hp].
    destruct (lookup_lt_is_Some_2 (atoms m) i Hlt) as [a Ha].
    now rewrite Hp, Ha.
  - rewrite (lookup_ge_None_2 (atoms m) i) by lia.
    rewrite (lookup_ge_None_2 c i) by lia. reflexivity.
  - destruct (c !! i); [|reflexivity].
    now destruct (atoms m !! i).
  - reflexivity.
Qed.

(** ** [optimize()] *)

Lemma optimize_false (fuel : nat) d d' :
  optimize fuel d = Some (false, d') <-> setup d = (false, d').
Proof.
  unfold optimize. destruct (setup d) as [[|] d0]; cbn [negb].
  - destruct (optimizeLoop fuel d0); split; intros; discriminate.
  - split; intros [= <-]; reflexivity.
Qed.

(** A [true] from [optimize()], taken apart: a successful [setup()], [k]
    calls of [step()] that did not converge, one that did, one write-back. *)
Lemma optimize_true (fuel : nat) d d' :
  optimize fuel d = Some (true, d') <->
  exists (d0 : MoleculeGeometryOptimizerPrivate) (k : nat),
    setup d = (true, d0)
    /\ (k < fuel)%nat
    /\ fst (step (stepN k d0)) = true
    /\ (forall j : nat, (j < k)%nat -> fst (step (stepN j d0)) = false)
    /\ d' = writeCoordinates (stepN (S k) d0).
Proof.
  unfold optimize. destruct (setup d) as [[|] d0]; cbn [negb].
  - destruct (optimizeLoop fuel d0) as [d1|] eqn:Hloop.
    + apply optimizeLoop_Some in Hloop as (k & Hk & Hconv & Hbefore & ->).
      split.
      * intros [= <-]. exists d0, k. repeat split; assumption.
      * intros (d0' & k' & [= <-] & Hk' & Hconv' & Hbefore' & ->).
        destruct (Nat.lt_trichotomy k k') as [Hlt|[->|Hgt]]; [| reflexivity |].
        -- rewrite (Hbefore' k Hlt) in Hconv. discriminate.
        -- rewrite (Hbefore k' Hgt) in Hconv'. discriminate.
    + split; [discriminate|].
      intros (d0' & k & [= <-] & Hk & Hconv & Hbefore & ->).
      assert (Hsome : optimizeLoop fuel d0 = Some (stepN (S k) d0)).
      { apply optimizeLoop_Some. exists k. repeat split; assumption. }
      congruence.
  - split; [discriminate|]. intros (d0' & k & Heq & _). discriminate.
Qed.

(** The session a converged run writes back from, and what the write-back
    leaves. *)
Lemma converged_session d d0 (k : nat) :
  setup d = (true, d0) ->
  exists (m : Molecule) (ff : FF),
    molecule d = Some m
    /\ (forall j : nat,
          molecule (stepN j d0) = Some m /\ forceField (stepN j d0) = Some ff
          /\ errorString (stepN j d0) = errorString d
          /\ forceFieldName (stepN j d0) = forceFieldName d)
    /\ writeCoordinates (stepN (S k) d0)
       = mkPrivate (Some (writeAtoms (coordinates (stepN (S k) d0)) m))
                   (Some ff) (forceFieldName d) (errorString d)
                   (coordinates (stepN (S k) d0)) (randState (stepN (S k) d0))
    /\ Molecule_coordinates (writeAtoms (coordinates (stepN (S k) d0)) m)
       = coordinates (stepN (S k) d0)
    /\ atomicNumber <$> atoms (writeAtoms (coordinates (stepN (S k) d0)) m)
       = atomicNumber <$> atoms m.
Proof.
  intros Hsetup.
  destruct (setup_true d d0 Hsetup) as (m & created & ff & Hm & _ & _ & ->).
  exists m, ff. split; [exact Hm|].
  assert (Hfields : forall j : nat,
            molecule (stepN j (mkPrivate (Some m) (Some ff) (forceFieldName d)
                                 (errorString d) (Molecule_coordinates m)
                                 (randState d))) = Some m
            /\ forceField (stepN j (mkPrivate (Some m) (Some ff)
                                 (forceFieldName d) (errorString d)
                                 (Molecule_coordinates m) (randState d)))
               = Some ff
            /\ errorString (stepN j (mkPrivate (Some m) (Some ff)
                                 (forceFieldName d) (errorString d)
                                 (Molecule_coordinates m) (randState d)))
               = errorString d
            /\ forceFieldName (stepN j (mkPrivate (Some m) (Some ff)
                                 (forceFieldName d) (errorString d)
                                 (Molecule_coordinates m) (randState d)))
               = forceFieldName d).
  { intros j.
    destruct (stepN_keeps_fields j (mkPrivate (Some m) (Some ff)
                (forceFieldName d) (errorString d) (Molecule_coordinates m)
                (randState d))) as (-> & -> & -> & -> & _).
    repeat split. }
  split; [exact Hfields|].
  set (d0 := mkPrivate _ _ _ _ _ _) in *.
  destruct (Hfields (S k)) as (Hmk & Hffk & Hek & Hnk).
  destruct (stepN_keeps_fields (S k) d0) as (_ & _ & _ & _ & Hlen).
  split.
  { unfold writeCoordinates. now rewrite Hmk, Hffk, Hek, Hnk. }
  apply writeAtoms_coordinates. rewrite Hlen. subst d0.
  cbn [coordinates]. unfold Molecule_coordinates, Molecule_size.
  apply length_fmap.
Qed.

(** A [true] from [optimize()] and the session it hands back. *)
Lemma optimize_true_written (fuel : nat) d d' :
  optimize fuel d = Some (true, d') ->
  exists (m0 : Molecule) (ff : FF) (k : nat) (d0 : MoleculeGeometryOptimizerPrivate),
    setup d = (true, d0)
    /\ (forall j : nat,
          molecule (stepN j d0) = Some m0 /\ forceField (stepN j d0) = Some ff)
    /\ (k < fuel)%nat
    /\ (forall j : nat, (j < k)%nat -> fst (step (stepN j d0)) = false)
    /\ fst (step (stepN k d0)) = true
    /\ d' = writeCoordinates (stepN (S k) d0)
    /\ molecule d' = Some (writeAtoms (coordinates (stepN (S k) d0)) m0)
    /\ forceField d' = Some ff
    /\ coordinates d' = coordinates (stepN (S k) d0)
    /\ Molecule_coordinates (writeAtoms (coordinates (stepN (S k) d0)) m0)
       = coordinates (stepN (S k) d0).
Proof.
  intros Hopt.
  destruct (proj1 (optimize_true fuel d d') Hopt)
    as (d0 & k & Hsetup & Hk & Hconv & Hbefore & ->).
  destruct (converged_session d d0 k Hsetup)
    as (m & ff & Hm & Hfields & Hwrite & Hcoords & _).
  exists m, ff, k, d0. rewrite Hwrite. cbn [molecule forceField coordinates].
  split; [exact Hsetup|].
  split; [intros j; destruct (Hfields j) as (Hmj & Hffj & _); now split|].
  repeat (split; [first [assumption | reflexivity]|]). exact Hcoords.
Qed.

(** C1. Whenever [optimize()] returns true, the coordinates it has just
    written onto the molecule are the session's, and the force field's rms
    gradient at them is below 0.1.  Each call of [step()] in the run
    reported exactly the test [rmsg < 0.1] at the coordinates its line
    search ended with; the loop called [step()] until the first such
    report ([k] calls said no, call [k + 1] said yes), then wrote back; and
    any run with fuel for these calls returns the same. *)
Theorem optimize_true_rms_gradient_below_threshold (fuel : nat) d d' :
  optimize fuel d = Some (true, d') ->
  exists (m : Molecule) (ff : FF) (k : nat),
    let d0 := snd (setup d) in
    molecule d' = Some m /\ forceField d' = Some ff
    /\ Molecule_coordinates m = coordinates d'
    /\ (ff_rmsg ff (coordinates d') <? 0.1)%float = true
    /\ (forall j : nat,
          fst (step (stepN j d0))
          = (ff_rmsg ff (coordinates (stepN (S j) d0)) <? 0.1)%float
          /\ coordinates (stepN (S j) d0)
             = ls_coordinates
                 (afterPasses ff stepCount (lineSearchInit ff (stepN j d0))))
    /\ (k < fuel)%nat
    /\ (forall j : nat, (j < k)%nat -> fst (step (stepN j d0)) = false)
    /\ fst (step (stepN k d0)) = true
    /\ d' = writeCoordinates (stepN (S k) d0)
    /\ (forall fuel' : nat,
          (k < fuel')%nat -> optimize fuel' d = Some (true, d')).
Proof.
  intros Hopt.
  destruct (optimize_true_written fuel d d' Hopt)
    as (m0 & ff & k & d0 & Hsetup & Hfields & Hk & Hbefore & Hconv & Hd'
        & Hmol & Hff & Hcoords & Hwritten).
  assert (Hreport : forall j : nat,
            fst (step (stepN j d0))
            = (ff_rmsg ff (coordinates (stepN (S j) d0)) <? 0.1)%float
            /\ coordinates (stepN (S j) d0)
               = ls_coordinates
                   (afterPasses ff stepCount (lineSearchInit ff (stepN j d0)))).
  { intros j. destruct (Hfields j) as (Hmj & Hffj).
    rewrite stepN_succ. exact (step_report (stepN j d0) m0 ff Hmj Hffj). }
  exists (writeAtoms (coordinates (stepN (S k) d0)) m0), ff, k.
  rewrite Hsetup. cbn [snd].
  split; [exact Hmol|]. split; [exact Hff|].
  split; [now rewrite Hcoords|].
  split. { rewrite Hcoords, <- (proj1 (Hreport k)). exact Hconv. }
  split; [exact Hreport|]. split; [exact Hk|]. split; [exact Hbefore|].
  split; [exact Hconv|]. split; [exact Hd'|].
  intros fuel' Hk'. apply optimize_true.
  exists d0, k. repeat split; assumption.
Qed.

(** C7. If [setup()] fails, [optimize()] returns false at once, whatever
    the fuel (no call of [step()] is made), and the molecule is as it was.
    When [optimize()] returns true, the molecule is untouched in every
    session state from [setup()] to the last [step()], and is then written
    once: the final molecule is the original one with the atom positions
    replaced by the converged session coordinates, which the session
    still holds. *)
Theorem optimize_writes_molecule_once_at_end d :
  (fst (setup d) = false ->
   forall fuel : nat,
     optimize fuel d = Some (false, snd (setup d))
     /\ molecule (snd (setup d)) = molecule d)
  /\ (forall (fuel : nat) d',
        optimize fuel d = Some (true, d') ->
        exists (m : Molecule) (k : nat),
          let d0 := snd (setup d) in
          molecule d = Some m
          /\ (forall j : nat, molecule (stepN j d0) = Some m)
          /\ (forall j : nat, (j < k)%nat -> fst (step (stepN j d0)) = false)
          /\ fst (step (stepN k d0)) = true
          /\ d' = writeCoordinates (stepN (S k) d0)
          /\ molecule d' = Some (writeAtoms (coordinates (stepN (S k) d0)) m)
          /\ coordinates d' = coordinates (stepN (S k) d0)
          /\ option_map Molecule_coordinates (molecule d')
             = Some (coordinates (stepN (S k) d0))
          /\ option_map (fun m' => atomicNumber <$> atoms m') (molecule d')
             = Some (atomicNumber <$> atoms m)).
Proof.
  split.
  - intros Hfail fuel. split; [|apply setup_keeps_molecule].
    apply optimize_false. destruct (setup d) as [ok d0].
    cbn [fst snd] in *. now subst ok.
  - intros fuel d' Hopt.
    destruct (proj1 (optimize_true fuel d d') Hopt)
      as (d0 & k & Hsetup & Hk & Hconv & Hbefore & ->).
    destruct (converged_session d d0 k Hsetup)
      as (m & ff & Hm & Hfields & Hwrite & Hcoords & Hnumbers).
    rewrite Hsetup. cbn [fst snd].
    exists m, k. cbn zeta. split; [exact Hm|].
    split; [intros j; apply Hfields|].
    split; [exact Hbefore|]. split; [exact Hconv|]. split; [reflexivity|].
    rewrite Hwrite. cbn [molecule coordinates option_map].
    split; [reflexivity|]. split; [reflexivity|].
    split; [now rewrite Hcoords | now rewrite Hnumbers].
Qed.

(** ** [setup()], [setForceField()] and [energy()] *)

(** The verdict of [setup()] and what it binds depend on the molecule and
    the force-field name alone, not on what earlier calls left behind. *)
Lemma setup_history_free d1 d2 :
  molecule d1 = molecule d2 -> forceFieldName d1 = forceFieldName d2 ->
  fst (setup d1) = fst (setup d2)
  /\ (fst (setup d1) = true ->
      forceField (snd (setup d1)) = forceField (snd (setup d2))
      /\ coordinates (snd (setup d1)) = coordinates (snd (setup d2))).
Proof.
  intros Hm Hn. unfold setup. rewrite Hm, Hn.
  destruct (molecule d2); [|split; [reflexivity | discriminate]].
  destruct (ForceField_create _); [|split; [reflexivity | discriminate]].
  destruct (ff_setup _) as [[|] ff]; cbn [fst snd forceField coordinates];
    split; try reflexivity; try discriminate.
  intros _. split; reflexivity.
Qed.

(** C6. [setup()] returns false and records its message in each of the
    three failure cases: no molecule bound, force-field name not
    registered, the created force field's own [setup()] failing.  These are
    the only failures, the message retrieved by [errorString()] is never
    empty, and a later [setup()] on the failed session, once a molecule and
    a name are set, decides and binds exactly as it does on a newly
    constructed session with that molecule and name. *)
Theorem setup_failure_records_error d :
  (molecule d = None ->
   fst (setup d) = false
   /\ errorString (snd (setup d)) = "No molecule specified")
  /\ (forall m : Molecule,
        molecule d = Some m ->
        ForceField_create (forceFieldName d) = None ->
        fst (setup d) = false
        /\ errorString (snd (setup d))
           = ("Force field '" ++ forceFieldName d ++ "' is not supported.")%string)
  /\ (forall (m : Molecule) (created : FF),
        molecule d = Some m ->
        ForceField_create (forceFieldName d) = Some created ->
        fst (ff_setup (ff_setMolecule created m)) = false ->
        fst (setup d) = false
        /\ errorString (snd (setup d)) = "Failed to setup force field.")
  /\ (fst (setup d) = false ->
      errorString (snd (setup d)) <> ""%string
      /\ (molecule d = None
          \/ ForceField_create (forceFieldName d) = None
          \/ exists (m : Molecule) (created : FF),
               molecule d = Some m
               /\ ForceField_create (forceFieldName d) = Some created
               /\ fst (ff_setup (ff_setMolecule created m)) = false)
      /\ forall (m' : option Molecule) (name' : string) (r : R),
           let retried :=
             setup (snd (setForceField (setMolecule (snd (setup d)) m') name')) in
           let fresh :=
             setup (snd (setForceField (MoleculeGeometryOptimizer m' r) name')) in
           fst retried = fst fresh
           /\ (fst retried = true ->
               forceField (snd retried) = forceField (snd fresh)
               /\ coordinates (snd retried) = coordinates (snd fresh))).
Proof.
  split; [|split; [|split]].
  - intros Hm. unfold setup. now rewrite Hm.
  - intros m Hm Hc. unfold setup. now rewrite Hm, Hc.
  - intros m created Hm Hc Hs. unfold setup. rewrite Hm, Hc.
    destruct (ff_setup (ff_setMolecule created m)) as [ok ff].
    cbn [fst] in Hs. now subst ok.
  - intros Hfail. split; [|split].
    + revert Hfail. unfold setup.
      destruct (molecule d); [|discriminate].
      destruct (ForceField_create _); [|discriminate].
      destruct (ff_setup _) as [[|] ff]; discriminate.
    + revert Hfail. unfold setup.
      destruct (molecule d) as [m|]; [|now left].
      destruct (ForceField_create _) as [created|]; [|right; now left].
      destruct (ff_setup (ff_setMolecule created m)) as [[|] ff] eqn:Hs;
        [discriminate|].
      intros _. right; right. exists m, created. rewrite Hs. now repeat split.
    + intros m' name' r. apply setup_history_free; reflexivity.
Qed.

(** C9, as amended.  [energy()] is the bound force field's energy at the
    session's coordinates when a force-field object is bound, and zero
    when none is: in a newly constructed session and after a [setup()]
    that failed on an unregistered name.  After a [setup()] that failed in
    the force field's own [setup()] the rejected force field stays bound,
    and after one that failed for want of a molecule the session is as it
    was but for the message: [energy()] then is that force field's energy
    at the coordinates the session held. *)
Theorem energy_zero_without_force_field d :
  (forall ff : FF,
     forceField d = Some ff -> energy d = ff_energy ff (coordinates d))
  /\ (forceField d = None -> energy d = 0%float)
  /\ (forall (m : option Molecule) (r : R),
        energy (MoleculeGeometryOptimizer m r) = 0%float)
  /\ (forall m : Molecule,
        molecule d = Some m ->
        ForceField_create (forceFieldName d) = None ->
        fst (setup d) = false
        /\ forceField (snd (setup d)) = None
        /\ energy (snd (setup d)) = 0%float)
  /\ (forall (m : Molecule) (created : FF),
        molecule d = Some m ->
        ForceField_create (forceFieldName d) = Some created ->
        fst (ff_setup (ff_setMolecule created m)) = false ->
        fst (setup d) = false
        /\ forceField (snd (setup d))
           = Some (snd (ff_setup (ff_setMolecule created m)))
        /\ energy (snd (setup d))
           = ff_energy (snd (ff_setup (ff_setMolecule created m)))
                       (coordinates d))
  /\ (molecule d = None ->
      fst (setup d) = false
      /\ forceField (snd (setup d)) = forceField d
      /\ energy (snd (setup d)) = energy d).
Proof.
  split; [|split; [|split; [|split; [|split]]]].
  - intros ff Hff. unfold energy. now rewrite Hff.
  - intros Hff. unfold energy. now rewrite Hff.
  - reflexivity.
  - intros m Hm Hc. unfold setup. rewrite Hm, Hc. repeat split.
  - intros m created Hm Hc Hs. unfold setup. rewrite Hm, Hc.
    destruct (ff_setup (ff_setMolecule created m)) as [ok ff].
    cbn [fst snd] in *. subst ok. repeat split.
  - intros Hm. unfold setup. rewrite Hm. repeat split.
Qed.

(** C10. [setForceField(name)] returns true for every name and only
    records it: every other field of the session is as before.  A name the
    registry does not know is found out by the next [setup()], which then
    fails with the message naming it. *)
Theorem setForceField_accepts_every_name d (name : string) :
  fst (setForceField d name) = true
  /\ forceFieldName (snd (setForceField d name)) = name
  /\ molecule (snd (setForceField d name)) = molecule d
  /\ forceField (snd (setForceField d name)) = forceField d
  /\ errorString (snd (setForceField d name)) = errorString d
  /\ coordinates (snd (setForceField d name)) = coordinates d
  /\ randState (snd (setForceField d name)) = randState d
  /\ (forall m : Molecule,
        molecule d = Some m ->
        ForceField_create name = None ->
        fst (setup (snd (setForceField d name))) = false
        /\ errorString (snd (setup (snd (setForceField d name))))
           = ("Force field '" ++ name ++ "' is not supported.")%string).
Proof.
  repeat (split; [reflexivity|]).
  intros m Hm Hc. unfold setup, setForceField.
  cbn [snd molecule forceFieldName]. now rewrite Hm, Hc.
Qed.

(** C8, as amended.  A second [optimize()] on a molecule a first one has
    converged runs [setup()] again.  If that fails it returns false
    without a call of [step()].  Otherwise it starts from the coordinates
    that were written back and calls [step()] at least once before any
    convergence test: it does not return without a call.  It returns true
    exactly after the first call whose line search ends with an rms
    gradient below 0.1, not before, and what it then writes back are the
    coordinates that line search ended with; if no call ever reports
    convergence it does not return, whatever the number of calls allowed.
    The code bounds neither the number of calls nor the change of the
    coordinates. *)
Theorem second_optimize_steps_again (fuel1 : nat) d d1 :
  optimize fuel1 d = Some (true, d1) ->
  let d0 := snd (setup d1) in
  (fst (setup d1) = false ->
   forall fuel : nat, optimize fuel d1 = Some (false, d0))
  /\ (fst (setup d1) = true ->
      coordinates d0 = coordinates d1
      /\ option_map Molecule_coordinates (molecule d1) = Some (coordinates d0)
      /\ optimize 0 d1 = None
      /\ (forall k : nat,
            fst (step (stepN k d0)) = true ->
            (forall j : nat, (j < k)%nat -> fst (step (stepN j d0)) = false) ->
            let d2 := writeCoordinates (stepN (S k) d0) in
            (forall fuel : nat,
               ((fuel <= k)%nat -> optimize fuel d1 = None)
               /\ ((k < fuel)%nat -> optimize fuel d1 = Some (true, d2)))
            /\ exists ff2 : FF,
                 forceField d2 = Some ff2
                 /\ coordinates d2
                    = ls_coordinates
                        (afterPasses ff2 stepCount
                           (lineSearchInit ff2 (stepN k d0)))
                 /\ option_map Molecule_coordinates (molecule d2)
                    = Some (coordinates d2)
                 /\ (ff_rmsg ff2 (coordinates d2) <? 0.1)%float = true)
      /\ ((forall k : nat, fst (step (stepN k d0)) = false) ->
          forall fuel : nat, optimize fuel d1 = None)).
Proof.
  intros Hfirst d0. subst d0.
  destruct (optimize_true_written fuel1 d d1 Hfirst)
    as (m1 & ff1 & k1 & d00 & _ & _ & _ & _ & _ & _ & Hm1 & _ & Hc1 & Hw1).
  destruct (setup d1) as [ok d0] eqn:Hsetup. cbn [fst snd]. split.
  - intros ->. intros fuel. now apply optimize_false.
  - intros ->.
    destruct (setup_true d1 d0 Hsetup) as (m & created & ff & Hm & _ & _ & Hd0).
    assert (Hstart : coordinates d0 = coordinates d1).
    { rewrite Hd0. cbn [coordinates].
      replace m with (writeAtoms (coordinates (stepN (S k1) d00)) m1)
        by congruence.
      now rewrite Hc1. }
    split; [exact Hstart|].
    split; [rewrite Hm1, Hstart, Hc1; cbn [option_map]; now rewrite Hw1|].
    split. { unfold optimize. rewrite Hsetup. reflexivity. }
    split.
    + intros k Hconv Hbefore. split.
      * intros fuel. split.
        -- intros Hle.
           destruct (optimize fuel d1) as [[[|] e]|] eqn:Hopt; [| |reflexivity].
           ++ apply optimize_true in Hopt
                as (d0' & k' & Hs & Hk' & Hconv' & Hbefore' & _).
              rewrite Hsetup in Hs. injection Hs as <-.
              destruct (Nat.lt_trichotomy k k') as [Hlt|[->|Hgt]]; [|lia|].
              ** rewrite (Hbefore' k Hlt) in Hconv. discriminate.
              ** rewrite (Hbefore k' Hgt) in Hconv'. discriminate.
           ++ apply optimize_false in Hopt. rewrite Hsetup in Hopt.
              discriminate.
        -- intros Hlt. apply optimize_true. exists d0, k.
           repeat split; assumption.
      * destruct (converged_session d1 d0 k Hsetup)
          as (m' & ff2 & _ & Hfields & Hwrite & Hcoords & _).
        destruct (Hfields k) as (Hmk & Hffk & _).
        destruct (step_report (stepN k d0) m' ff2 Hmk Hffk) as (Hreport & Hends).
        rewrite <- stepN_succ in Hreport, Hends.
        unfold converganceValue in Hreport.
        exists ff2. rewrite Hwrite. cbn [forceField coordinates molecule option_map].
        split; [reflexivity|]. split; [exact Hends|].
        split; [now rewrite Hcoords|].
        rewrite <- Hreport. exact Hconv.
    + intros Hnever fuel. unfold optimize. rewrite Hsetup. cbn [negb].
      destruct (optimizeLoop fuel d0) as [e|] eqn:Hloop; [|reflexivity].
      apply optimizeLoop_Some in Hloop as (k & _ & Hconv & _).
      rewrite Hnever in Hconv. discriminate.
Qed.

(** * Further properties of the optimizer *)

(** ** Passes the three named branches do not cover *)


(** With a NaN [initialEnergy] a pass changes neither the step size nor
    [initialEnergy], and never leaves the loop. *)
Lemma lineSearchBody_nan_initial (ff : FF) st :
  is_nan (ls_initialEnergy st) = true ->
  exists st',
    lineSearchBody ff st = (Continue, st')
    /\ ls_step st' = ls_step st
    /\ ls_initialEnergy st' = ls_initialEnergy st.
Proof.
  intros Hnan. unfold lineSearchBody.
  destruct (is_nan (ff_energy ff _)).
  - destruct (wiggle ff _ _ _) as [c r]. eexists. now repeat split.
  - rewrite (Real_ltb_nan _ (ls_initialEnergy st)) by auto.
    rewrite (Real_ltb_nan (ls_initialEnergy st)) by auto.
    cbn [andb]. eexists. now repeat split.
Qed.

Lemma lineSearch_nan_initial (ff : FF) (count : nat) st :
  is_nan (ls_initialEnergy st) = true ->
  stepSizesUsed ff count st = repeat (ls_step st) count
  /\ snd (lineSearch ff count st) = count
  /\ ls_step (fst (lineSearch ff count st)) = ls_step st
  /\ ls_initialEnergy (fst (lineSearch ff count st)) = ls_initialEnergy st.
Proof.
  revert st. induction count as [|count IH]; intros st Hnan;
    cbn [stepSizesUsed lineSearch repeat]; [now repeat split|].
  destruct (lineSearchBody_nan_initial ff st Hnan)
    as (st' & Hbody & Hstep & Hinit).
  rewrite Hbody.
  destruct (IH st') as (Hsizes & Hpasses & Hstep' & Hinit');
    [now rewrite Hinit|].
  destruct (lineSearch ff count st') as [st'' n]. cbn [fst snd] in *.
  rewrite Hsizes, Hstep, Hpasses, Hstep', Hinit', Hinit. now repeat split.
Qed.

(** X2. Only the energy after a move is tested for NaN.  When the energy
    at the coordinates [step()] starts from is NaN, the line search makes
    all of its 10 passes with the step size 0.05: it never grows or
    shrinks the step, never stops early, and ends with [initialEnergy]
    still NaN. *)
Theorem nan_start_energy_freezes_step_size d (m : Molecule) (ff : FF) :
  molecule d = Some m -> forceField d = Some ff ->
  is_nan (energy d) = true ->
  let run := lineSearch ff stepCount (lineSearchInit ff d) in
  stepSizesUsed ff stepCount (lineSearchInit ff d) = repeat 0.05%float 10
  /\ snd run = 10%nat
  /\ ls_step (fst run) = 0.05%float
  /\ is_nan (ls_initialEnergy (fst run)) = true
  /\ coordinates (snd (step d)) = ls_coordinates (fst run).
Proof.
  intros Hm Hff Hnan run. unfold energy in Hnan. rewrite Hff in Hnan.
  destruct (lineSearch_nan_initial ff stepCount (lineSearchInit ff d) Hnan)
    as (Hsizes & Hpasses & Hstep & Hinit).
  fold run in Hpasses, Hstep, Hinit.
  split; [exact Hsizes|]. split; [exact Hpasses|]. split; [exact Hstep|].
  split; [rewrite Hinit; exact Hnan|].
  unfold step. now rewrite Hm, Hff.
Qed.

(** ** The energy along a line search *)

(** One pass keeps the energy at the coordinates at or below
    [initialEnergy], and [initialEnergy] at or below any bound it was
    under, when the energy after the move is a number. *)
Lemma lineSearchBody_descends (ff : FF) st (bound : Real) :
  is_nan (finalEnergy ff st) = false ->
  (ff_energy ff (ls_coordinates st) <=? ls_initialEnergy st)%float = true ->
  (ls_initialEnergy st <=? bound)%float = true ->
  let st' := snd (lineSearchBody ff st) in
  (ff_energy ff (ls_coordinates st') <=? ls_initialEnergy st')%float = true
  /\ (ls_initialEnergy st' <=? bound)%float = true.
Proof.
  intros Hnum Hat Hbound. unfold finalEnergy, movedCoordinates in Hnum.
  destruct (Real_leb_not_nan _ _ Hbound) as [Hinit _].
  unfold lineSearchBody. rewrite Hnum.
  destruct (_ <? ls_initialEnergy st)%float eqn:Hlt; cbn [andb].
  - apply Real_ltb_leb in Hlt.
    destruct (_ <? stepConv)%float;
      cbn [snd ls_coordinates ls_initialEnergy].
    + now split.
    + split; [now apply Real_leb_refl|].
      exact (Real_leb_trans _ _ _ Hlt Hbound).
  - destruct (ls_initialEnergy st <? _)%float eqn:Hgt;
      cbn [snd ls_coordinates ls_initialEnergy].
    + now split.
    + split; [|exact Hbound]. now apply Real_not_ltb_leb.
Qed.

Lemma lineSearch_descends (ff : FF) (count : nat) (bound : Real) st :
  Forall (fun e => is_nan e = false) (energiesEvaluated ff count st) ->
  (ff_energy ff (ls_coordinates st) <=? ls_initialEnergy st)%float = true ->
  (ls_initialEnergy st <=? bound)%float = true ->
  let st' := fst (lineSearch ff count st) in
  (ff_energy ff (ls_coordinates st') <=? ls_initialEnergy st')%float = true
  /\ (ls_initialEnergy st' <=? bound)%float = true.
Proof.
  revert st. induction count as [|count IH]; intros st Hnums Hat Hbound;
    cbn [lineSearch energiesEvaluated] in *; [now split|].
  apply Forall_cons_iff in Hnums as [Hnum Hrest].
  pose proof (lineSearchBody_descends ff st bound Hnum Hat Hbound) as Hpass.
  destruct (lineSearchBody ff st) as [[|] st1]; cbn [fst snd] in *.
  - destruct Hpass as [Hat1 Hbound1].
    specialize (IH st1 Hrest Hat1 Hbound1).
    now destruct (lineSearch ff count st1) as [st2 n].
  - exact Hpass.
Qed.

(** X3. [step()] never raises the energy unless it meets a NaN: when the
    energy at the start and the energy after every tentative move of the
    call are numbers, [energy()] after the call is at most [energy()]
    before it. *)
Theorem step_never_raises_energy d (m : Molecule) (ff : FF) :
  molecule d = Some m -> forceField d = Some ff ->
  is_nan (energy d) = false ->
  Forall (fun e => is_nan e = false)
         (energiesEvaluated ff stepCount (lineSearchInit ff d)) ->
  (energy (snd (step d)) <=? energy d)%float = true.
Proof.
  intros Hm Hff Hstart Hnums.
  destruct (step_report d m ff Hm Hff) as [_ Hends].
  destruct (step_keeps_fields d) as (_ & Hff' & _).
  unfold energy in *. rewrite Hff', Hff, Hends in *. unfold afterPasses.
  destruct (lineSearch_descends ff stepCount
              (ff_energy ff (coordinates d)) (lineSearchInit ff d) Hnums)
    as [Hat Hbound]; try (now apply Real_leb_refl).
  exact (Real_leb_trans _ _ _ Hat Hbound).
Qed.

(** ** A line search in which every move is rejected *)

Lemma lineSearch_all_rejected (ff : FF) (count : nat) st :
  Forall (fun e => (ls_initialEnergy st <? e)%float = true)
         (energiesEvaluated ff count st) ->
  let st' := fst (lineSearch ff count st) in
  ls_coordinates st' = ls_coordinates st
  /\ ls_rand st' = ls_rand st
  /\ snd (lineSearch ff count st) = count.
Proof.
  revert st. induction count as [|count IH]; intros st Hall;
    cbn [lineSearch energiesEvaluated] in *; [now repeat split|].
  apply Forall_cons_iff in Hall as [Hgt Hrest].
  destruct (rejection_branch ff st Hgt)
    as (st1 & Hbody & Hcoords & _ & Hinit & _ & Hrand).
  rewrite Hbody in *. rewrite <- Hinit in Hrest.
  destruct (IH st1 Hrest) as (Hcoords' & Hrand' & Hpasses).
  destruct (lineSearch ff count st1) as [st2 n]. cbn [fst snd] in *.
  repeat split; congruence.
Qed.

(** A call of [step()] that reports no convergence and hands back the
    session it was given does so for ever. *)
Lemma optimizeLoop_stuck (fuel : nat) d :
  step d = (false, d) -> optimizeLoop fuel d = None.
Proof.
  intros Hstuck. induction fuel as [|fuel IH]; cbn [optimizeLoop];
    [reflexivity|].
  now rewrite Hstuck.
Qed.

(** X4. [optimize()] has no cap on the calls of [step()].  When, from the
    coordinates [setup()] copied, every tentative move of the line search
    raises the energy, [step()] restores the coordinates each time and
    leaves the session as it found it; if the rms gradient there is not
    below 0.1, every further call does the same and [optimize()] does not
    return, whatever the number of calls allowed. *)
Theorem optimize_never_returns_when_stuck d (ff : FF) :
  fst (setup d) = true ->
  forceField (snd (setup d)) = Some ff ->
  Forall (fun e => (energy (snd (setup d)) <? e)%float = true)
         (energiesEvaluated ff stepCount (lineSearchInit ff (snd (setup d)))) ->
  (ff_rmsg ff (coordinates (snd (setup d))) <? 0.1)%float = false ->
  step (snd (setup d)) = (false, snd (setup d))
  /\ forall fuel : nat, optimize fuel d = None.
Proof.
  intros Hok Hff Hall Hrms.
  destruct (setup d) as [ok d0] eqn:Hsetup. cbn [fst snd] in *. subst ok.
  destruct (setup_true d d0 Hsetup) as (m & created & ff0 & _ & _ & _ & Hd0).
  assert (Hstuck : step d0 = (false, d0)).
  { unfold energy in Hall. rewrite Hff in Hall.
    destruct (lineSearch_all_rejected ff stepCount (lineSearchInit ff d0) Hall)
      as (Hcoords & Hrand & _).
    unfold step. rewrite Hd0 in *. cbn [molecule forceField] in *.
    injection Hff as ->.
    cbn [lineSearchInit ls_coordinates ls_rand coordinates randState] in *.
    rewrite Hcoords, Hrand. cbn [forceFieldName errorString].
    unfold converganceValue. now rewrite Hrms. }
  split; [exact Hstuck|].
  intros fuel. unfold optimize. rewrite Hsetup. cbn [negb].
  now rewrite (optimizeLoop_stuck fuel d0 Hstuck).
Qed.

(** ** The range of the step size *)

Lemma stepSizesUsed_reachable (ff : FF) (count : nat) :
  forall (j : nat) st (s : Real),
    In (ls_step st) (reachableSteps j) ->
    In s (stepSizesUsed ff count st) ->
    In s (reachableSteps (j + count)).
Proof.
  induction count as [|count IH]; intros j st s Hin Hs;
    cbn [stepSizesUsed] in Hs; [destruct Hs|].
  destruct Hs as [<-|Hs].
  - apply (reachableSteps_le j); [lia | exact Hin].
  - pose proof (lineSearchBody_step_cases ff st) as Hcases.
    destruct (lineSearchBody ff st) as [[|] st']; [|destruct Hs].
    cbn [snd] in Hcases.
    replace (j + S count)%nat with (S j + count)%nat by lia.
    apply (IH (S j) st' s); [|exact Hs].
    exact (reachableSteps_next j _ _ Hin Hcases).
Qed.

Lemma reachableSteps_unit_range (s : Real) :
  In s (reachableSteps stepCount) ->
  (0 <? s)%float = true /\ (s <=? 1)%float = true.
Proof.
  assert (Hall : forallb (fun s => (0 <? s)%float && (s <=? 1)%float)
                   (reachableSteps stepCount) = true)
    by (vm_compute; reflexivity).
  intros Hin. rewrite forallb_forall in Hall.
  now apply andb_prop, Hall.
Qed.

(** X5. Every tentative move of every call of [step()] is made with a
    step size that is positive and at most 1, whatever the force field
    answers: the clamp of the growing branch holds across passes and no
    sequence of branches takes the step to zero or below. *)
Theorem tentative_moves_use_step_in_unit_range (ff : FF) d (s : Real) :
  In s (stepSizesUsed ff stepCount (lineSearchInit ff d)) ->
  (0 <? s)%float = true /\ (s <=? 1)%float = true.
Proof.
  intros Hs. apply reachableSteps_unit_range.
  apply (stepSizesUsed_reachable ff stepCount 0 (lineSearchInit ff d) s);
    [cbn; now left | exact Hs].
Qed.

(** ** Positions outside the force field's atoms *)

Lemma wiggle_lookup_beyond (ff : FF) (init c : CartesianCoordinates) (r : R)
    (i : nat) :
  length c = length init ->
  (ff_atomCount ff <= Z.of_nat i)%Z ->
  fst (wiggle ff init c r) !! i = c !! i.
Proof.
  intros Hlen Hi.
  destruct (wiggle_spec ff init c r Hlen) as (_ & _ & Hout & _).
  apply Hout. lia.
Qed.

Lemma lineSearchBody_lookup_beyond (ff : FF) st (i : nat) :
  (ff_atomCount ff <= Z.of_nat i)%Z ->
  ls_coordinates (snd (lineSearchBody ff st)) !! i = ls_coordinates st !! i.
Proof.
  intros Hi.
  pose proof (moveAtoms_lookup_beyond ff (ls_coordinates st) (ls_gradient st)
                (ls_step st) i Hi) as Hmove.
  pose proof (moveAtoms_length ff (ls_coordinates st) (ls_gradient st)
                (ls_step st)) as Hlen.
  unfold lineSearchBody. destruct (is_nan _).
  - pose proof (wiggle_lookup_beyond ff (ls_coordinates st) _ (ls_rand st) i
                  Hlen Hi) as Hwiggle.
    destruct (wiggle ff _ _ _) as [c r]. cbn [fst snd ls_coordinates] in *.
    congruence.
  - destruct (_ && _); [exact Hmove|].
    destruct (_ <? _)%float; [exact Hmove|].
    destruct (_ <? _)%float; [reflexivity | exact Hmove].
Qed.

Lemma lineSearch_lookup_beyond (ff : FF) (count : nat) st (i : nat) :
  (ff_atomCount ff <= Z.of_nat i)%Z ->
  ls_coordinates (fst (lineSearch ff count st)) !! i = ls_coordinates st !! i.
Proof.
  intros Hi. revert st.
  induction count as [|count IH]; intros st; cbn [lineSearch];
    [reflexivity|].
  pose proof (lineSearchBody_lookup_beyond ff st i Hi) as Hpass.
  destruct (lineSearchBody ff st) as [[|] st1]; cbn [fst snd] in *.
  - specialize (IH st1). destruct (lineSearch ff count st1) as [st2 n].
    cbn [fst] in *. congruence.
  - exact Hpass.
Qed.

(** X6. [step()], however often it is called, changes only the positions
    with an index below the force field's [atomCount()]: a position at or
    beyond that count is after the calls what it was before, and the
    number of positions never changes.  In particular a force field
    reporting no atoms leaves all coordinates alone. *)
Theorem step_moves_only_counted_atoms d (ff : FF) (k i : nat) :
  forceField d = Some ff ->
  (ff_atomCount ff <= Z.of_nat i)%Z ->
  coordinates (stepN k d) !! i = coordinates d !! i
  /\ length (coordinates (stepN k d)) = length (coordinates d).
Proof.
  intros Hff Hi. split; [|apply stepN_keeps_fields].
  revert d Hff. induction k as [|k IH]; intros d Hff; cbn [stepN];
    [reflexivity|].
  destruct (step_keeps_fields d) as (_ & Hff' & _).
  rewrite IH by congruence.
  unfold step. rewrite Hff. destruct (molecule d); [|reflexivity].
  cbn [snd coordinates].
  apply (lineSearch_lookup_beyond ff stepCount (lineSearchInit ff d) i Hi).
Qed.

(** ** What a run depends on *)

Lemma step_withError (e : string) d :
  step (withError e d) = (fst (step d), withError e (snd (step d))).
Proof.
  unfold step, withError. cbn [molecule forceField coordinates randState].
  destruct (molecule d) eqn:Hm; [destruct (forceField d) eqn:Hff|];
    cbn [fst snd molecule forceField forceFieldName coordinates randState];
    now rewrite ?Hm, ?Hff.
Qed.

Lemma optimizeLoop_withError (e : string) (fuel : nat) d :
  optimizeLoop fuel (withError e d)
  = withError e <$> optimizeLoop fuel d.
Proof.
  revert d. induction fuel as [|fuel IH]; intros d; cbn [optimizeLoop];
    [reflexivity|].
  rewrite step_withError. destruct (step d) as [[|] d1]; cbn [fst snd].
  - reflexivity.
  - apply IH.
Qed.

Lemma writeCoordinates_withError (e : string) d :
  writeCoordinates (withError e d) = withError e (writeCoordinates d).
Proof.
  unfold writeCoordinates, withError. cbn [molecule forceField coordinates].
  destruct (molecule d) eqn:Hm; [destruct (forceField d) eqn:Hff|];
    cbn [molecule forceField forceFieldName coordinates randState];
    now rewrite ?Hm, ?Hff.
Qed.

(** X7. What [optimize()] returns depends on the bound molecule, the
    force-field name and the random state alone.  Two sessions that agree
    on these, whatever earlier calls of [setup()], [step()] or
    [setForceField()] left in them, return together or not at all, with
    the same flag and the same molecule, and on success with the same
    force field, coordinates and random state. *)
Theorem optimize_history_free (fuel : nat) d1 d2 :
  molecule d1 = molecule d2 ->
  forceFieldName d1 = forceFieldName d2 ->
  randState d1 = randState d2 ->
  match optimize fuel d1, optimize fuel d2 with
  | Some (b1, e1), Some (b2, e2) =>
      b1 = b2 /\ molecule e1 = molecule e2
      /\ (b1 = true ->
          forceField e1 = forceField e2
          /\ coordinates e1 = coordinates e2
          /\ randState e1 = randState e2)
  | None, None => True
  | _, _ => False
  end.
Proof.
  intros Hm Hn Hr. unfold optimize, setup. rewrite <- Hm, <- Hn, <- Hr.
  destruct (molecule d1) as [m|]; cbn [negb];
    [|repeat split; discriminate].
  destruct (ForceField_create (forceFieldName d1)) as [created|]; cbn [negb];
    [|repeat split; discriminate].
  destruct (ff_setup (ff_setMolecule created m)) as [[|] ff]; cbn [negb];
    [|repeat split; discriminate].
  change (mkPrivate (Some m) (Some ff) (forceFieldName d1) (errorString d2)
                    (Molecule_coordinates m) (randState d1))
    with (withError (errorString d2)
            (mkPrivate (Some m) (Some ff) (forceFieldName d1) (errorString d1)
                       (Molecule_coordinates m) (randState d1))).
  rewrite optimizeLoop_withError.
  destruct (optimizeLoop fuel _) as [d'|]; cbn [fmap option_fmap option_map];
    [|exact I].
  rewrite writeCoordinates_withError. now repeat split.
Qed.

(** ** The write-back on its own *)

Lemma writeAtoms_size c (m : Molecule) :
  Molecule_size (writeAtoms c m) = Molecule_size m.
Proof.
  unfold writeAtoms.
  apply (fold_left_invariant
           (fun m' : Molecule => Molecule_size m' = Molecule_size m));
    [reflexivity|].
  intros m' i Hm'. destruct (c !! i); [|exact Hm'].
  unfold Atom_setPosition, Molecule_size in *. cbn [atoms].
  now rewrite length_alter.
Qed.

Lemma Molecule_ext (m1 m2 : Molecule) :
  (forall i : nat, atoms m1 !! i = atoms m2 !! i) -> m1 = m2.
Proof.
  destruct m1 as [l1], m2 as [l2]. cbn [atoms]. intros Hl.
  f_equal. now apply list_eq.
Qed.

Lemma writeAtoms_own_coordinates (m : Molecule) :
  writeAtoms (Molecule_coordinates m) m = m.
Proof.
  apply Molecule_ext. intros i. unfold writeAtoms, Molecule_coordinates.
  rewrite writeAtoms_fold_lookup, list_lookup_fmap.
  destruct (decide (i < Molecule_size m)%nat); [|reflexivity].
  destruct (atoms m !! i) as [[z p]|]; reflexivity.
Qed.

Lemma writeAtoms_twice c (m : Molecule) :
  writeAtoms c (writeAtoms c m) = writeAtoms c m.
Proof.
  apply Molecule_ext. intros i. unfold writeAtoms at 1.
  rewrite writeAtoms_fold_lookup, writeAtoms_size.
  unfold writeAtoms. rewrite writeAtoms_fold_lookup.
  destruct (decide (i < Molecule_size m)%nat); [|reflexivity].
  destruct (c !! i); [|reflexivity].
  now destruct (atoms m !! i).
Qed.

(** X8. [writeCoordinates()] used by hand: after a successful [setup()]
    and any number of [step()] calls it makes the molecule's coordinates
    the session's and keeps the atoms otherwise; called right after
    [setup()] it leaves the molecule exactly as it was; and calling it
    twice is calling it once. *)
Theorem writeCoordinates_after_manual_steps d (k : nat) :
  fst (setup d) = true ->
  let d0 := snd (setup d) in
  option_map Molecule_coordinates (molecule (writeCoordinates (stepN k d0)))
  = Some (coordinates (stepN k d0))
  /\ option_map (fun m => atomicNumber <$> atoms m)
                (molecule (writeCoordinates (stepN k d0)))
     = option_map (fun m => atomicNumber <$> atoms m) (molecule d)
  /\ molecule (writeCoordinates d0) = molecule d
  /\ writeCoordinates (writeCoordinates (stepN k d0))
     = writeCoordinates (stepN k d0).
Proof.
  intros Hok. destruct (setup d) as [ok d0] eqn:Hsetup.
  cbn [fst snd] in *. subst ok.
  destruct (setup_true d d0 Hsetup) as (m & created & ff & Hm & _ & _ & Hd0).
  destruct (stepN_keeps_fields k d0) as (Hmk & Hffk & _ & _ & Hlen).
  assert (Hm0 : molecule d0 = Some m) by now rewrite Hd0.
  assert (Hff0 : forceField d0 = Some ff) by now rewrite Hd0.
  assert (Hsize : length (coordinates (stepN k d0)) = Molecule_size m).
  { rewrite Hlen, Hd0. cbn [coordinates].
    unfold Molecule_coordinates, Molecule_size. apply length_fmap. }
  destruct (writeAtoms_coordinates _ m Hsize) as [Hcoords Hnumbers].
  unfold writeCoordinates at 1 2.
  rewrite Hmk, Hffk, Hm0, Hff0, Hm. cbn [molecule option_map].
  split; [now rewrite Hcoords|]. split; [now rewrite Hnumbers|].
  split.
  { unfold writeCoordinates. rewrite Hm0, Hff0. cbn [molecule].
    rewrite Hd0. cbn [coordinates]. now rewrite writeAtoms_own_coordinates. }
  unfold writeCoordinates. rewrite Hmk, Hffk, Hm0, Hff0.
  cbn [molecule forceField coordinates forceFieldName errorString randState].
  now rewrite writeAtoms_twice.
Qed.

(** ** The error string, and calls before [setup()] *)

(** X9. No call clears the error string.  A successful [setup()], any
    number of [step()] calls and a successful [optimize()] leave it as it
    was; so when a failed [setup()] is retried with success, once the
    molecule or the name is put right, [errorString()] still returns the
    message of the failure. *)
Theorem errorString_is_never_cleared d :
  (fst (setup d) = true -> errorString (snd (setup d)) = errorString d)
  /\ (forall k : nat, errorString (stepN k d) = errorString d)
  /\ (forall (fuel : nat) d',
        optimize fuel d = Some (true, d') -> errorString d' = errorString d)
  /\ (fst (setup d) = false ->
      forall (m' : option Molecule) (name' : string),
        let retried :=
          setup (snd (setForceField (setMolecule (snd (setup d)) m') name')) in
        fst retried = true ->
        errorString (snd retried) = errorString (snd (setup d))
        /\ errorString (snd retried) <> ""%string).
Proof.
  assert (Hkeeps : forall d1,
            fst (setup d1) = true -> errorString (snd (setup d1)) = errorString d1).
  { intros d1 Hok. destruct (setup d1) as [ok d0] eqn:Hsetup.
    cbn [fst snd] in *. subst ok.
    destruct (setup_true d1 d0 Hsetup) as (m & created & ff & _ & _ & _ & ->).
    reflexivity. }
  split; [apply Hkeeps|]. split; [intros k; apply stepN_keeps_fields|]. split.
  - intros fuel d' Hopt.
    destruct (proj1 (optimize_true fuel d d') Hopt)
      as (d0 & k & Hsetup & _ & _ & _ & ->).
    destruct (converged_session d d0 k Hsetup)
      as (m & ff & _ & _ & Hwrite & _).
    now rewrite Hwrite.
  - intros Hfail m' name' retried Hok. subst retried.
    rewrite (Hkeeps _ Hok). cbn [setForceField setMolecule snd errorString].
    split; [reflexivity|].
    revert Hfail. unfold setup.
    destruct (molecule d); [|discriminate].
    destruct (ForceField_create _); [|discriminate].
    destruct (ff_setup _) as [[|] ff]; discriminate.
Qed.

(** X10. Before a successful [setup()], that is with no molecule or no
    force field bound, [step()] returns false and changes nothing however
    often it is called, [writeCoordinates()] changes nothing, and a loop
    waiting for [step()] to report convergence never ends.  A newly
    constructed optimizer is in this state. *)
Theorem step_before_setup_does_nothing d :
  molecule d = None \/ forceField d = None ->
  step d = (false, d)
  /\ (forall k : nat, stepN k d = d)
  /\ writeCoordinates d = d
  /\ (forall fuel : nat, optimizeLoop fuel d = None)
  /\ forall (m : option Molecule) (r : R),
       forceField (MoleculeGeometryOptimizer (FF := FF) m r) = None.
Proof.
  intros Hunset.
  assert (Hstep : step d = (false, d)).
  { unfold step. destruct Hunset as [-> | Hff]; [reflexivity|].
    rewrite Hff. now destruct (molecule d). }
  split; [exact Hstep|]. split.
  { induction k as [|k IH]; cbn [stepN]; [reflexivity|].
    now rewrite Hstep. }
  split.
  { unfold writeCoordinates. destruct Hunset as [-> | Hff]; [reflexivity|].
    rewrite Hff. now destruct (molecule d). }
  split; [intros fuel; now apply optimizeLoop_stuck | reflexivity].
Qed.

(** ** The static entry point *)

(** X11. [optimizeCoordinates(molecule)] always works with the default
    force field "uff".  For a null pointer it returns false.  When it
    returns false the molecule and the random state are as they were, the
    cause being a null molecule, "uff" not being registered, or the force
    field's [setup()] rejecting the molecule, and no call of [step()] was
    needed.  When it returns true the molecule has its atoms with new
    positions at which the rms gradient of the "uff" force field set up
    for it is below 0.1. *)
Theorem optimizeCoordinates_uses_default_force_field :
  (forall (fuel : nat) (r : R),
     optimizeCoordinates (FF := FF) fuel None r = Some (false, None, r))
  /\ forall (fuel : nat) (m : option Molecule) (r : R)
            (b : bool) (om : option Molecule) (r' : R),
       optimizeCoordinates fuel m r = Some (b, om, r') ->
       if b then
         exists (m0 m' : Molecule) (created ff : FF),
           m = Some m0 /\ om = Some m'
           /\ ForceField_create "uff" = Some created
           /\ ff_setup (ff_setMolecule created m0) = (true, ff)
           /\ (ff_rmsg ff (Molecule_coordinates m') <? 0.1)%float = true
           /\ atomicNumber <$> atoms m' = atomicNumber <$> atoms m0
       else
         om = m /\ r' = r
         /\ (m = None
             \/ ForceField_create "uff" = None
             \/ exists (m0 : Molecule) (created : FF),
                  m = Some m0
                  /\ ForceField_create "uff" = Some created
                  /\ fst (ff_setup (ff_setMolecule created m0)) = false)
         /\ optimizeCoordinates 0 m r = Some (false, m, r).
Proof.
  split; [reflexivity|].
  intros fuel m r b om r'. unfold optimizeCoordinates.
  destruct (optimize fuel (MoleculeGeometryOptimizer m r))
    as [[b0 d']|] eqn:Hopt; [|discriminate].
  intros [= -> <- <-]. destruct b.
  - destruct (proj1 (optimize_true _ _ _) Hopt)
      as (d0 & k & Hsetup & _ & Hconv & _ & ->).
    destruct (converged_session _ d0 k Hsetup)
      as (m0 & ff & Hm0 & Hfields & Hwrite & Hcoords & Hnumbers).
    destruct (setup_true _ d0 Hsetup)
      as (m1 & created & ff1 & Hm1 & Hcreate & Hffsetup & Hd0).
    cbn [MoleculeGeometryOptimizer molecule forceFieldName] in Hm0, Hm1, Hcreate.
    assert (m1 = m0) by congruence. subst m1.
    assert (ff1 = ff).
    { destruct (Hfields 0%nat) as (_ & Hff0 & _). cbn [stepN] in Hff0.
      rewrite Hd0 in Hff0. cbn [forceField] in Hff0. congruence. }
    subst ff1.
    exists m0, (writeAtoms (coordinates (stepN (S k) d0)) m0), created, ff.
    rewrite Hwrite. cbn [molecule].
    repeat (split; [first [assumption | reflexivity]|]).
    split; [|exact Hnumbers].
    rewrite Hcoords.
    destruct (Hfields k) as (Hmk & Hffk & _).
    destruct (step_report (stepN k d0) m0 ff Hmk Hffk) as [Hreport _].
    rewrite <- stepN_succ in Hreport. unfold converganceValue in Hreport.
    now rewrite <- Hreport.
  - apply optimize_false in Hopt.
    pose proof (setup_keeps_molecule (MoleculeGeometryOptimizer m r))
      as (Hmol & _ & Hrand).
    rewrite Hopt in Hmol, Hrand. cbn [snd MoleculeGeometryOptimizer molecule
                                      randState] in Hmol, Hrand.
    split; [exact Hmol|]. split; [exact Hrand|]. split.
    + revert Hopt. unfold setup.
      cbn [MoleculeGeometryOptimizer molecule forceFieldName].
      destruct m as [m0|]; [|now left].
      destruct (ForceField_create "uff") as [created|]; [|right; now left].
      destruct (ff_setup (ff_setMolecule created m0)) as [[|] ff] eqn:Hs;
        [discriminate|].
      intros _. right; right. exists m0, created. rewrite Hs. now repeat split.
    + rewrite (proj2 (optimize_false 0 _ _) Hopt). now rewrite Hmol, Hrand.
Qed.

(** ** A line search without NaN, and [setup()] called again *)

Lemma lineSearchBody_number_keeps_direction (ff : FF) st :
  is_nan (finalEnergy ff st) = false ->
  ls_gradient (snd (lineSearchBody ff st)) = ls_gradient st
  /\ ls_rand (snd (lineSearchBody ff st)) = ls_rand st.
Proof.
  intros Hnum. unfold finalEnergy, movedCoordinates in Hnum.
  unfold lineSearchBody. rewrite Hnum.
  destruct (_ && _); [now split|].
  destruct (_ <? _)%float; [now split|].
  destruct (_ <? _)%float; now split.
Qed.

Lemma lineSearch_numbers_keep_direction (ff : FF) (k : nat) :
  forall (count : nat) st,
    (k <= count)%nat ->
    Forall (fun e => is_nan e = false) (energiesEvaluated ff count st) ->
    ls_gradient (afterPasses ff k st) = ls_gradient st
    /\ ls_rand (afterPasses ff k st) = ls_rand st.
Proof.
  unfold afterPasses.
  induction k as [|k IH]; intros count st Hk Hnums; cbn [lineSearch];
    [now split|].
  destruct count as [|count]; [lia|].
  cbn [energiesEvaluated] in Hnums.
  apply Forall_cons_iff in Hnums as [Hnum Hrest].
  pose proof (lineSearchBody_number_keeps_direction ff st Hnum) as Hpass.
  destruct (lineSearchBody ff st) as [[|] st1]; cbn [fst snd] in *.
  - destruct (IH count st1 ltac:(lia) Hrest) as [Hgrad Hrand].
    destruct (lineSearch ff k st1) as [st2 n]. cbn [fst] in *.
    destruct Hpass. split; congruence.
  - exact Hpass.
Qed.

(** X12. The gradient is taken anew, and random numbers are drawn, only
    in a pass that meets a NaN energy.  When every energy found after a
    tentative move of a [step()] call is a number, all passes of the call
    move the atoms along the gradient taken at the start of the call, and
    the call leaves the random state as it was. *)
Theorem step_without_nan_keeps_gradient_and_random_state
    d (m : Molecule) (ff : FF) :
  molecule d = Some m -> forceField d = Some ff ->
  Forall (fun e => is_nan e = false)
         (energiesEvaluated ff stepCount (lineSearchInit ff d)) ->
  randState (snd (step d)) = randState d
  /\ forall k : nat,
       (k <= stepCount)%nat ->
       ls_gradient (afterPasses ff k (lineSearchInit ff d))
       = ff_gradient ff (coordinates d).
Proof.
  intros Hm Hff Hnums. split.
  - destruct (lineSearch_numbers_keep_direction ff stepCount stepCount
                (lineSearchInit ff d) ltac:(lia) Hnums) as [_ Hrand].
    unfold step. rewrite Hm, Hff. exact Hrand.
  - intros k Hk.
    now destruct (lineSearch_numbers_keep_direction ff k stepCount
                    (lineSearchInit ff d) Hk Hnums).
Qed.

(** X13. [setup()] starts over.  Called twice in a row it gives the same
    flag and the same session as called once; called after any number of
    [step()] calls that followed a successful [setup()], it succeeds again
    and the session is the one of the first [setup()] but for the random
    state: the coordinates are the molecule's once more and what the
    steps had reached is dropped. *)
Theorem setup_again_starts_over d :
  setup (snd (setup d)) = setup d
  /\ (fst (setup d) = true ->
      forall k : nat,
        let d0 := snd (setup d) in
        setup (stepN k d0)
        = (true,
           mkPrivate (molecule d0) (forceField d0) (forceFieldName d0)
                     (errorString d0) (coordinates d0)
                     (randState (stepN k d0)))).
Proof.
  assert (Hagain : forall d1 d0,
            setup d1 = (true, d0) ->
            forall d2,
              molecule d2 = molecule d0 ->
              forceFieldName d2 = forceFieldName d0 ->
              errorString d2 = errorString d0 ->
              setup d2
              = (true,
                 mkPrivate (molecule d0) (forceField d0) (forceFieldName d0)
                           (errorString d0) (coordinates d0) (randState d2))).
  { intros d1 d0 Hsetup d2 Hm2 Hn2 He2.
    destruct (setup_true d1 d0 Hsetup)
      as (m & created & ff & _ & Hcreate & Hffsetup & ->).
    cbn [molecule forceField forceFieldName errorString coordinates] in *.
    unfold setup. now rewrite Hm2, Hn2, Hcreate, Hffsetup, He2. }
  split.
  - destruct (setup d) as [[|] d0] eqn:Hsetup; cbn [snd].
    + rewrite (Hagain d d0 Hsetup d0 eq_refl eq_refl eq_refl).
      now destruct d0.
    + revert Hsetup. unfold setup.
      destruct (molecule d) as [m|] eqn:Hm.
      * destruct (ForceField_create (forceFieldName d)) as [created|] eqn:Hc.
        -- destruct (ff_setup (ff_setMolecule created m)) as [[|] ff] eqn:Hs;
             [discriminate|].
           intros [= <-]. cbn [molecule forceFieldName coordinates randState].
           now rewrite ?Hm, ?Hc, ?Hs.
        -- intros [= <-]. cbn [molecule forceFieldName coordinates randState].
           now rewrite ?Hm, ?Hc.
      * intros [= <-]. cbn [molecule forceField forceFieldName coordinates
                            randState]. now rewrite ?Hm.
  - intros Hok k d0. subst d0.
    destruct (setup d) as [ok d0] eqn:Hsetup. cbn [fst snd] in *. subst ok.
    destruct (stepN_keeps_fields k d0) as (Hmk & _ & Hnk & Hek & _).
    exact (Hagain d d0 Hsetup (stepN k d0) Hmk Hnk Hek).
Qed.

(** ** Where no index leaves its container *)

Lemma writeCoordinatesChecked_Some d d' :
  writeCoordinatesChecked d = Some d' -> writeCoordinates d = d'.
Proof.
  unfold writeCoordinatesChecked, writeCoordinates.
  destruct (molecule d) as [m|]; [destruct (forceField d)|]; try congruence.
  destruct (writeAtomsChecked (coordinates d) m) as [m'|] eqn:Hwrite;
    [|discriminate].
  rewrite (writeAtomsChecked_Some _ _ _ Hwrite). congruence.
Qed.

Lemma stepN_covers (ff : FF) (k : nat) d :
  forceField d = Some ff -> sessionCoversAtoms ff d ->
  sessionCoversAtoms ff (stepN k d).
Proof.
  revert d. induction k as [|k IH]; intros d Hff Hcovers; cbn [stepN];
    [exact Hcovers|].
  destruct (step_keeps_fields d) as (_ & Hff' & _).
  apply IH; [congruence|].
  now destruct (stepChecked_defined d ff Hff Hcovers) as (_ & _ & Hnext).
Qed.

(** X14. The code checks no index.  Whenever the loops of [step()] and
    [writeCoordinates()] stay within their containers, they do what the
    total functions of this development say.  They do stay within them in
    every call that follows a successful [setup()], however many calls of
    [step()] came before, provided the force field counts no more atoms
    than the molecule has and returns a gradient entry for each of them. *)
Theorem calls_after_setup_stay_in_range d (m : Molecule) (ff : FF) :
  molecule d = Some m ->
  fst (setup d) = true ->
  forceField (snd (setup d)) = Some ff ->
  (Z.to_nat (ff_atomCount ff) <= Molecule_size m)%nat ->
  (forall c : CartesianCoordinates,
     length c = Molecule_size m ->
     (Z.to_nat (ff_atomCount ff) <= length (ff_gradient ff c))%nat) ->
  (forall k : nat,
     let dk := stepN k (snd (setup d)) in
     stepChecked dk = Some (step dk)
     /\ writeCoordinatesChecked dk = Some (writeCoordinates dk))
  /\ (forall d1 (result : bool * MoleculeGeometryOptimizerPrivate),
        stepChecked d1 = Some result -> step d1 = result)
  /\ (forall d1 d2,
        writeCoordinatesChecked d1 = Some d2 -> writeCoordinates d1 = d2).
Proof.
  intros Hm Hok Hff Hcount Hgrad.
  split; [|split; [exact stepChecked_Some | exact writeCoordinatesChecked_Some]].
  destruct (setup d) as [ok d0] eqn:Hsetup. cbn [fst snd] in *. subst ok.
  destruct (setup_true d d0 Hsetup) as (m' & created & ff' & Hm' & _ & _ & Hd0).
  assert (m' = m) by congruence. subst m'.
  assert (Hlen0 : length (coordinates d0) = Molecule_size m).
  { rewrite Hd0. cbn [coordinates].
    unfold Molecule_coordinates, Molecule_size. apply length_fmap. }
  assert (Hcovers : sessionCoversAtoms ff d0).
  { unfold sessionCoversAtoms, coversAtoms. rewrite Hlen0.
    split; [exact Hcount|]. split; [now apply Hgrad | exact Hgrad]. }
  intros k. cbv zeta.
  destruct (stepN_keeps_fields k d0) as (Hmk & Hffk & _ & _ & Hlen).
  split.
  - apply (stepChecked_defined _ ff); [congruence|].
    now apply stepN_covers.
  - assert (Hm0 : molecule d0 = Some m) by (rewrite Hd0; reflexivity).
    unfold writeCoordinatesChecked, writeCoordinates.
    rewrite Hmk, Hffk, Hm0, Hff.
    rewrite writeAtomsChecked_defined; [reflexivity|].
    rewrite Hlen, Hlen0. lia.
Qed.

End Properties.






(** * Concrete runs

    The theorems above at the plugins of [Toy]: a soft, a default, a rigid
    spring and the square-root well. *)

#[local] Open Scope float_scope.

Lemma optimize_true_rms_gradient_below_threshold_witness :
  exists d',
    optimize 5 (Toy.newSession "soft" [Toy.atomAt 6 20]) = Some (true, d')
    /\ exists (m : Molecule) (ff : Toy.ToyForceField),
         molecule d' = Some m /\ forceField d' = Some ff
         /\ Molecule_coordinates m = coordinates d'
         /\ (ff_rmsg ff (coordinates d') <? 0.1) = true.
Proof.
  edestruct (optimize_true_rms_gradient_below_threshold
               5 (Toy.newSession "soft" [Toy.atomAt 6 20]))
    as (m & ff & k & Hm & Hff & Hc & Hr & _); [vm_compute; reflexivity|].
  eexists. split; [vm_compute; reflexivity|].
  exists m, ff. repeat split; assumption.
Defined.

Lemma nan_energy_wiggles_and_retries_witness :
  let ff := Toy.bound Toy.SqrtWell [0.01; 4] in
  let st := lineSearchInit ff (Toy.configured "sqrt" [0.01; 4]) in
  is_nan (finalEnergy ff st) = true
  /\ exists st',
       lineSearchBody ff st = (Continue, st')
       /\ (exists u : Vector3,
             ls_coordinates st' !! 0%nat = Some (vadd (mkVector3 0.01 0 0) u)
             /\ Toy.squaredNorm u = 1)
       /\ (exists u : Vector3,
             ls_coordinates st' !! 1%nat = Some (vadd (mkVector3 4 0 0) u)
             /\ Toy.squaredNorm u = 1)
       /\ ls_coordinates st' = [mkVector3 1.01 0 0; mkVector3 4 1 0]
       /\ ls_gradient st' = ff_gradient ff (ls_coordinates st')
       /\ ls_step st' = 0.05
       /\ ls_initialEnergy st' = ls_initialEnergy st.
Proof.
  intros ff st. split; [vm_compute; reflexivity|].
  destruct (nan_energy_wiggles_and_retries ff st)
    as (st' & Hbody & Hin & _ & _ & _ & Hgrad & Hstep & Hinit & _);
    [vm_compute; reflexivity|].
  assert (Hunit : forall r : nat,
            Toy.squaredNorm (fst (Vector3_Random_normalized r)) = 1).
  { intros r. unfold Vector3_Random_normalized, Toy.axisCycle. cbn [fst].
    destruct (r mod 3)%nat as [|[|]]; reflexivity. }
  exists st'. split; [exact Hbody|].
  split.
  { destruct (Hin 0%nat (mkVector3 0.01 0 0)) as (u & _ & Hat & Hall);
      [vm_compute; lia | reflexivity |].
    exists u. split; [exact Hat|].
    exact (Hall (fun v => Toy.squaredNorm v = 1) Hunit). }
  split.
  { destruct (Hin 1%nat (mkVector3 4 0 0)) as (u & _ & Hat & Hall);
      [vm_compute; lia | reflexivity |].
    exists u. split; [exact Hat|].
    exact (Hall (fun v => Toy.squaredNorm v = 1) Hunit). }
  split.
  { revert Hbody. vm_compute. now intros [= <-]. }
  split; [exact Hgrad|]. split; [exact Hstep | exact Hinit].
Defined.

Lemma improvement_doubles_step_or_stops_witness :
  (let ff := Toy.bound (Toy.Harmonic 0.01) [20] in
   let st := lineSearchInit ff (Toy.configured "soft" [20]) in
   (finalEnergy ff st <? ls_initialEnergy st) = true
   /\ (stepConv <=? abs (finalEnergy ff st - ls_initialEnergy st)) = true
   /\ exists st',
        lineSearchBody ff st = (Continue, st')
        /\ ls_step st' = 0.1
        /\ ls_initialEnergy st' = finalEnergy ff st
        /\ ls_coordinates st' = movedCoordinates ff st
        /\ ls_gradient st' = ls_gradient st)
  /\ (let ff := Toy.bound (Toy.Harmonic 1) [0.001] in
      let st := lineSearchInit ff (Toy.configured "uff" [0.001]) in
      (finalEnergy ff st <? ls_initialEnergy st) = true
      /\ (abs (finalEnergy ff st - ls_initialEnergy st) <? stepConv) = true
      /\ exists st',
           lineSearchBody ff st = (Break, st')
           /\ lineSearch ff stepCount st = (st', 1%nat)).
Proof.
  split; intros ff st.
  - split; [vm_compute; reflexivity|]. split; [vm_compute; reflexivity|].
    destruct (improvement_doubles_step_or_stops ff st) as [Hgrow _];
      [vm_compute; reflexivity|].
    destruct Hgrow as (st' & Hbody & Hstep & _ & _ & Hinit & Hmoved & _ & Hgrad);
      [vm_compute; reflexivity|].
    exists st'. split; [exact Hbody|].
    split; [rewrite Hstep; vm_compute; reflexivity|].
    repeat split; assumption.
  - split; [vm_compute; reflexivity|]. split; [vm_compute; reflexivity|].
    destruct (improvement_doubles_step_or_stops ff st) as [_ Hstop];
      [vm_compute; reflexivity|].
    destruct Hstop as (st' & Hbody & _ & Hloop); [vm_compute; reflexivity|].
    exists st'. split; [exact Hbody | exact (Hloop 9%nat)].
Defined.

Lemma rejection_restores_and_shrinks_witness :
  let ff := Toy.bound (Toy.Harmonic 1e12) [1] in
  let d := Toy.configured "rigid" [1] in
  let st := afterPasses ff 9 (lineSearchInit ff d) in
  (ls_initialEnergy st <? finalEnergy ff st) = true
  /\ exists st',
       lineSearchBody ff st = (Continue, st')
       /\ ls_coordinates st' = ls_coordinates st
       /\ ls_step st' = ls_step st * 0.1
       /\ ls_initialEnergy st' = ls_initialEnergy st
       /\ (ls_step st' <? stepFloor) = false
       /\ ls_step st' = stepFloor.
Proof.
  intros ff d st. split; [vm_compute; reflexivity|].
  destruct (rejection_restores_and_shrinks ff st)
    as (st' & Hbody & Hcoords & Hstep & Hinit & _ & _ & Hfloor);
    [vm_compute; reflexivity|].
  exists st'. split; [exact Hbody|]. split; [exact Hcoords|].
  split; [exact Hstep|]. split; [exact Hinit|].
  split; [apply (Hfloor d 9%nat); [unfold stepCount; lia | reflexivity]|].
  rewrite Hstep. vm_compute. reflexivity.
Defined.

Lemma step_restarts_bounded_search_witness :
  let ff := Toy.bound (Toy.Harmonic 0.01) [20] in
  let d := Toy.configured "soft" [20] in
  molecule d = Some (mkMolecule [Toy.atomAt 6 20])
  /\ forceField d = Some ff
  /\ sessionCoversAtoms ff d
  /\ stepChecked d = Some (step d)
  /\ sessionCoversAtoms ff (snd (step d))
  /\ ls_step (fst (lineSearch ff stepCount (lineSearchInit ff d))) = 1
  /\ head (stepSizesUsed ff stepCount (lineSearchInit ff d)) = Some 0.05
  /\ (1 <= length (stepSizesUsed ff stepCount (lineSearchInit ff d)) <= 10)%nat
  /\ head (stepSizesUsed ff stepCount (lineSearchInit ff (snd (step d))))
     = Some 0.05.
Proof.
  intros ff d.
  assert (Hm : molecule d = Some (mkMolecule [Toy.atomAt 6 20]))
    by (vm_compute; reflexivity).
  assert (Hff : forceField d = Some ff) by (vm_compute; reflexivity).
  assert (Hcovers : sessionCoversAtoms ff d).
  { split; [vm_compute; lia|]. split; [vm_compute; lia|].
    intros c' Hc'. unfold ff_gradient, Toy.toyForceField, Toy.toyGradient.
    rewrite length_fmap, Hc'. vm_compute. lia. }
  destruct (step_restarts_bounded_search d (mkMolecule [Toy.atomAt 6 20]) ff
              Hm Hff Hcovers)
    as (Hreturns & _ & Hnextfit & Hfirst & _ & Hbound & _ & Hnext).
  split; [exact Hm|]. split; [exact Hff|]. split; [exact Hcovers|].
  split; [exact Hreturns|]. split; [exact Hnextfit|].
  split; [vm_compute; reflexivity|].
  split; [exact Hfirst|]. split; [exact Hbound | exact Hnext].
Defined.

Lemma setup_failure_records_error_witness :
  (let d := MoleculeGeometryOptimizer (FF := Toy.ToyForceField) None 0%nat in
   molecule d = None
   /\ fst (setup d) = false
   /\ errorString (snd (setup d)) = "No molecule specified"%string)
  /\ (let d := Toy.newSession "nonexistent" [Toy.atomAt 6 1] in
      ForceField_create (forceFieldName d) = None
      /\ fst (setup d) = false
      /\ errorString (snd (setup d))
         = "Force field 'nonexistent' is not supported."%string)
  /\ (let d := Toy.newSession "uff" [Toy.atomAt 0 1] in
      fst (setup d) = false
      /\ errorString (snd (setup d)) = "Failed to setup force field."%string
      /\ errorString (snd (setup d)) <> ""%string
      /\ let retried :=
           setup (snd (setForceField
                         (setMolecule (snd (setup d))
                            (Some (mkMolecule [Toy.atomAt 6 1]))) "uff")) in
         fst retried = true
         /\ coordinates (snd retried) = [mkVector3 1 0 0]).
Proof.
  split; [|split]; intros d.
  - destruct (setup_failure_records_error d) as (Hnone & _).
    split; [reflexivity|]. exact (Hnone eq_refl).
  - destruct (setup_failure_records_error d) as (_ & Hunreg & _).
    split; [reflexivity|].
    exact (Hunreg (mkMolecule [Toy.atomAt 6 1]) eq_refl eq_refl).
  - destruct (setup_failure_records_error d) as (_ & _ & Hrej & Hfail).
    destruct (Hrej (mkMolecule [Toy.atomAt 0 1]) (Toy.mkToy (Toy.Harmonic 1) None)
                eq_refl eq_refl eq_refl) as (Hfalse & Hmsg).
    destruct (Hfail Hfalse) as (Hnonempty & _ & Hretry).
    split; [exact Hfalse|]. split; [exact Hmsg|]. split; [exact Hnonempty|].
    destruct (Hretry (Some (mkMolecule [Toy.atomAt 6 1])) "uff"%string 0%nat)
      as (Hverdict & Hbinds).
    cbn zeta. split; [rewrite Hverdict; reflexivity|].
    destruct Hbinds as (_ & Hcoords); [rewrite Hverdict; reflexivity|].
    rewrite Hcoords. reflexivity.
Defined.

Lemma optimize_writes_molecule_once_at_end_witness :
  (let d := Toy.newSession "nonexistent" [Toy.atomAt 6 1] in
   fst (setup d) = false
   /\ optimize 3 d = Some (false, snd (setup d))
   /\ molecule (snd (setup d)) = molecule d)
  /\ (let d := Toy.newSession "soft" [Toy.atomAt 6 20] in
      exists d' (k : nat),
        optimize 5 d = Some (true, d')
        /\ (forall j : nat,
              molecule (stepN j (snd (setup d)))
              = Some (mkMolecule [Toy.atomAt 6 20]))
        /\ fst (step (stepN k (snd (setup d)))) = true
        /\ option_map Molecule_coordinates (molecule d')
           = Some (coordinates (stepN (S k) (snd (setup d))))).
Proof.
  split; intros d.
  - destruct (optimize_writes_molecule_once_at_end d) as (Hfail & _).
    split; [reflexivity|]. exact (Hfail eq_refl 3%nat).
  - destruct (optimize_writes_molecule_once_at_end d) as (_ & Hok).
    edestruct (Hok 5%nat)
      as (m & k & Hm & Hkeeps & _ & Hconv & _ & _ & _ & Hwritten & _);
      [vm_compute; reflexivity|].
    eexists. exists k. split; [vm_compute; reflexivity|].
    injection Hm as <-.
    split; [exact Hkeeps|]. split; [exact Hconv | exact Hwritten].
Defined.

Lemma second_optimize_steps_again_witness :
  let d := Toy.newSession "soft" [Toy.atomAt 6 9] in
  let d1 := sessionAfterOptimize 1 d in
  let d0 := snd (setup d1) in
  optimize 1 d = Some (true, d1)
  /\ fst (setup d1) = true
  /\ coordinates d0 = coordinates d1
  /\ optimize 0 d1 = None
  /\ fst (step d0) = true
  /\ optimize 1 d1 = Some (true, writeCoordinates (stepN 1 d0))
  /\ exists ff2 : Toy.ToyForceField,
       forceField (writeCoordinates (stepN 1 d0)) = Some ff2
       /\ (ff_rmsg ff2 (coordinates (writeCoordinates (stepN 1 d0))) <? 0.1)
          = true.
Proof.
  intros d d1 d0.
  assert (Hfirst : optimize 1 d = Some (true, d1)) by (vm_compute; reflexivity).
  assert (Hok : fst (setup d1) = true) by (vm_compute; reflexivity).
  assert (Hconv : fst (step (stepN 0 d0)) = true) by (vm_compute; reflexivity).
  destruct (second_optimize_steps_again 1 d d1 Hfirst) as [_ Hsecond].
  destruct (Hsecond Hok) as (Hstart & _ & Hnone & Hreturns & _).
  fold d0 in Hstart, Hreturns.
  destruct (Hreturns 0%nat Hconv ltac:(intros j Hj; lia))
    as (Hfuel & ff2 & Hff2 & _ & _ & Hrms).
  split; [exact Hfirst|]. split; [exact Hok|]. split; [exact Hstart|].
  split; [exact Hnone|]. split; [exact Hconv|].
  split; [apply (Hfuel 1%nat); lia|].
  exists ff2. split; [exact Hff2 | exact Hrms].
Defined.

Lemma energy_zero_without_force_field_witness :
  (let d := Toy.newSession "nonexistent" [Toy.atomAt 6 1] in
   fst (setup d) = false /\ energy (snd (setup d)) = 0)
  /\ (let d := Toy.rebound in
      fst (setup d) = false
      /\ forceField (snd (setup d))
         = Some (Toy.mkToy (Toy.Harmonic 1) (Some (mkMolecule [Toy.atomAt 0 1])))
      /\ energy (snd (setup d)) = 0.5)
  /\ (let d := setMolecule (Toy.configured "uff" [1]) None in
      fst (setup d) = false /\ energy (snd (setup d)) = 0.5).
Proof.
  split; [|split]; intros d.
  - destruct (energy_zero_without_force_field d) as (_ & _ & _ & Hunreg & _).
    destruct (Hunreg (mkMolecule [Toy.atomAt 6 1]) eq_refl eq_refl)
      as (Hfalse & _ & Hzero).
    split; [exact Hfalse | exact Hzero].
  - destruct (energy_zero_without_force_field d) as (_ & _ & _ & _ & Hrej & _).
    destruct (Hrej (mkMolecule [Toy.atomAt 0 1]) (Toy.mkToy (Toy.Harmonic 1) None)
                eq_refl eq_refl eq_refl) as (Hfalse & Hbound & Henergy).
    split; [exact Hfalse|]. split; [exact Hbound|].
    rewrite Henergy. vm_compute. reflexivity.
  - destruct (energy_zero_without_force_field d) as (_ & _ & _ & _ & _ & Hnone).
    destruct (Hnone eq_refl) as (Hfalse & _ & Henergy).
    split; [exact Hfalse|]. rewrite Henergy. vm_compute. reflexivity.
Defined.

Lemma setForceField_accepts_every_name_witness :
  let d := MoleculeGeometryOptimizer (FF := Toy.ToyForceField)
             (Some (mkMolecule [Toy.atomAt 6 1])) 0%nat in
  ForceField_create (FF := Toy.ToyForceField) "nonexistent" = None
  /\ fst (setForceField d "nonexistent") = true
  /\ forceFieldName (snd (setForceField d "nonexistent")) = "nonexistent"%string
  /\ fst (setup (snd (setForceField d "nonexistent"))) = false
  /\ errorString (snd (setup (snd (setForceField d "nonexistent"))))
     = "Force field 'nonexistent' is not supported."%string.
Proof.
  intros d.
  destruct (setForceField_accepts_every_name d "nonexistent")
    as (Htrue & Hname & _ & _ & _ & _ & _ & Hdeferred).
  destruct (Hdeferred (mkMolecule [Toy.atomAt 6 1]) eq_refl eq_refl)
    as (Hfalse & Hmsg).
  split; [reflexivity|]. split; [exact Htrue|]. split; [exact Hname|].
  split; [exact Hfalse | exact Hmsg].
Defined.

(** * Where the code departs from the stated claims *)

(** C4 as stated says repeated rejections within one call of [step()] can
    bring the step size arbitrarily close to zero.  They cannot: no force
    field, session and number of passes within the bound give a step size
    below [stepFloor], which is positive. *)
Lemma step_size_not_arbitrarily_small :
  ~ (forall eps : Real,
       (0 <? eps) = true ->
       exists (FF : Type) (forceFields : ForceFieldInterface FF)
              (R : Type) (random : RandomSource R)
              (ff : FF) (d : MoleculeGeometryOptimizerPrivate (FF := FF) (R := R))
              (k : nat),
         (k <= stepCount)%nat
         /\ (ls_step (afterPasses ff k (lineSearchInit ff d)) <? eps) = true).
Proof.
  intros Hclaim.
  destruct (Hclaim stepFloor eq_refl)
    as (FF & forceFields & R & random & ff & d & k & Hk & Hbelow).
  destruct (step_size_floor ff d k Hk) as [_ Hfloor].
  rewrite Hfloor in Hbelow. discriminate.
Qed.

(** C8 as stated says a second [optimize()] on a converged molecule takes
    a bounded number of steps and changes every coordinate by less than
    the tolerance.  Neither holds.  With the soft spring and an atom at
    [x = 9], the first run converges after one step and the second run,
    converging after one step too, moves the atom by more than half a
    length unit.  With the ledge and an atom at [x = 2], the first run
    converges after one step at [x = 1.345], on the slope; the second run
    steps over the ledge to [x = 0.89], where the rms gradient is far
    above 0.1 and every tentative move raises the energy: [step()] hands
    the session back unchanged from then on, and the second run does not
    return, whatever the number of steps allowed. *)
Lemma second_optimize_neither_bounded_nor_within_tolerance :
  (exists d1 d2,
     optimize 1 (Toy.newSession "soft" [Toy.atomAt 6 9]) = Some (true, d1)
     /\ optimize 1 d1 = Some (true, d2)
     /\ option_map Molecule_coordinates (molecule d1)
        = Some [mkVector3 8.4105000000000008 0 0]
     /\ option_map Molecule_coordinates (molecule d2)
        = Some [mkVector3 7.8596122500000014 0 0]
     /\ (0.5 <=? abs (7.8596122500000014 - 8.4105000000000008)) = true
     /\ (abs (7.8596122500000014 - 8.4105000000000008) <? converganceValue)
        = false
     /\ (abs (7.8596122500000014 - 8.4105000000000008) <? stepConv) = false)
  /\ (let d := Ledge.newSession 2 in
      let d1 := sessionAfterOptimize 1 d in
      optimize 1 d = Some (true, d1)
      /\ option_map Molecule_coordinates (molecule d1)
         = Some [mkVector3 1.3449999999999995 0 0]
      /\ coordinates (snd (step (snd (setup d1))))
         = [mkVector3 0.88999999999999946 0 0]
      /\ step (snd (step (snd (setup d1))))
         = (false, snd (step (snd (setup d1))))
      /\ forall fuel : nat, optimize fuel d1 = None).
Proof.
  split.
  - do 2 eexists.
    split; [vm_compute; reflexivity|]. split; [vm_compute; reflexivity|].
    split; [vm_compute; reflexivity|]. split; [vm_compute; reflexivity|].
    repeat split; vm_compute; reflexivity.
  - intros d d1.
    assert (Hsetup : setup d1 = (true, snd (setup d1)))
      by (vm_compute; reflexivity).
    assert (Hstep : step (snd (setup d1))
                    = (false, snd (step (snd (setup d1)))))
      by (vm_compute; reflexivity).
    assert (Hstuck : step (snd (step (snd (setup d1))))
                     = (false, snd (step (snd (setup d1)))))
      by (vm_compute; reflexivity).
    split; [vm_compute; reflexivity|]. split; [vm_compute; reflexivity|].
    split; [vm_compute; reflexivity|]. split; [exact Hstuck|].
    intros fuel. unfold optimize. rewrite Hsetup. cbn [negb].
    destruct fuel as [|fuel]; [reflexivity|].
    cbn [optimizeLoop]. rewrite Hstep.
    now rewrite (optimizeLoop_stuck fuel _ Hstuck).
Qed.

(** C9 as stated counts every failed session among those without a force
    field, where [energy()] is zero.  A session whose [setup()] failed in
    the force field's own [setup()] keeps that force field bound, and
    [energy()] is its energy at the coordinates the session held: 0.5
    here, not zero. *)
Lemma failed_setup_energy_not_zero :
  fst (setup Toy.rebound) = false
  /\ errorString (snd (setup Toy.rebound))
     = "Failed to setup force field."%string
  /\ forceField (snd (setup Toy.rebound)) <> None
  /\ energy (snd (setup Toy.rebound)) = 0.5
  /\ (energy (snd (setup Toy.rebound)) =? 0) = false.
Proof.
  split; [reflexivity|]. split; [reflexivity|].
  split; [discriminate|].
  split; vm_compute; reflexivity.
Qed.

(** * Concrete runs for the further properties *)


Lemma nan_start_energy_freezes_step_size_witness :
  let ff := Toy.bound Toy.SqrtWell [-1] in
  let d := Toy.configured "sqrt" [-1] in
  is_nan (energy d) = true
  /\ stepSizesUsed ff stepCount (lineSearchInit ff d) = repeat 0.05 10
  /\ ls_step (fst (lineSearch ff stepCount (lineSearchInit ff d))) = 0.05.
Proof.
  intros ff d.
  destruct (nan_start_energy_freezes_step_size
              d (mkMolecule [Toy.atomAt 6 (-1)]) ff)
    as (Hsizes & _ & Hstep & _);
    [vm_compute; reflexivity | vm_compute; reflexivity
     | vm_compute; reflexivity |].
  split; [vm_compute; reflexivity|]. split; [exact Hsizes | exact Hstep].
Defined.

Lemma step_never_raises_energy_witness :
  let ff := Toy.bound (Toy.Harmonic 0.01) [20] in
  let d := Toy.configured "soft" [20] in
  energy d = 2
  /\ energy (snd (step d)) = 1.746580500000001
  /\ (energy (snd (step d)) <=? energy d) = true.
Proof.
  intros ff d.
  split; [vm_compute; reflexivity|]. split; [vm_compute; reflexivity|].
  apply (step_never_raises_energy d (mkMolecule [Toy.atomAt 6 20]) ff);
    [vm_compute; reflexivity | vm_compute; reflexivity
     | vm_compute; reflexivity |].
  vm_compute. repeat constructor.
Defined.

Lemma optimize_never_returns_when_stuck_witness :
  let d := Toy.newSession "rigid" [Toy.atomAt 6 1] in
  fst (setup d) = true
  /\ step (snd (setup d)) = (false, snd (setup d))
  /\ forall fuel : nat, optimize fuel d = None.
Proof.
  intros d. split; [vm_compute; reflexivity|].
  apply (optimize_never_returns_when_stuck
           d (Toy.bound (Toy.Harmonic 1e12) [1]));
    [vm_compute; reflexivity | vm_compute; reflexivity | |
     vm_compute; reflexivity].
  vm_compute. repeat constructor.
Defined.

Lemma tentative_moves_use_step_in_unit_range_witness :
  let ff := Toy.bound (Toy.Harmonic 0.01) [20] in
  let d := Toy.configured "soft" [20] in
  In 0.8 (stepSizesUsed ff stepCount (lineSearchInit ff d))
  /\ (0 <? 0.8) = true /\ (0.8 <=? 1) = true.
Proof.
  intros ff d.
  assert (Hin : In 0.8 (stepSizesUsed ff stepCount (lineSearchInit ff d))).
  { vm_compute. do 4 right. left. reflexivity. }
  split; [exact Hin|].
  exact (tentative_moves_use_step_in_unit_range ff d 0.8 Hin).
Defined.

Lemma step_moves_only_counted_atoms_witness :
  Z.le (ff_atomCount (Toy.bound (Toy.Harmonic 1) [2])) (Z.of_nat 1%nat)
  /\ coordinates (stepN 3 Toy.firstAtomOnly) !! 1%nat = Some (mkVector3 3 0 0)
  /\ coordinates (stepN 3 Toy.firstAtomOnly) !! 0%nat
     = Some (mkVector3 0.012273999999999712 0 0)
  /\ length (coordinates (stepN 3 Toy.firstAtomOnly)) = 2%nat.
Proof.
  assert (Hcount : Z.le (ff_atomCount (Toy.bound (Toy.Harmonic 1) [2]))
                        (Z.of_nat 1%nat)) by (vm_compute; discriminate).
  assert (Hff : forceField Toy.firstAtomOnly
                = Some (Toy.bound (Toy.Harmonic 1) [2]))
    by (vm_compute; reflexivity).
  destruct (step_moves_only_counted_atoms
              Toy.firstAtomOnly (Toy.bound (Toy.Harmonic 1) [2]) 3 1
              Hff Hcount) as [Hsame Hlen].
  split; [exact Hcount|]. split; [rewrite Hsame; vm_compute; reflexivity|].
  split; [vm_compute; reflexivity|].
  rewrite Hlen. vm_compute. reflexivity.
Defined.

Lemma optimize_history_free_witness :
  errorString (Toy.recovered "soft" [Toy.atomAt 6 9])
  <> errorString (Toy.newSession "soft" [Toy.atomAt 6 9])
  /\ exists e1 e2,
       optimize 1 (Toy.recovered "soft" [Toy.atomAt 6 9]) = Some (true, e1)
       /\ optimize 1 (Toy.newSession "soft" [Toy.atomAt 6 9]) = Some (true, e2)
       /\ molecule e1 = molecule e2
       /\ coordinates e1 = coordinates e2.
Proof.
  split; [vm_compute; discriminate|].
  assert (Hrun1 : exists e1,
            optimize 1 (Toy.recovered "soft" [Toy.atomAt 6 9])
            = Some (true, e1))
    by (eexists; vm_compute; reflexivity).
  assert (Hrun2 : exists e2,
            optimize 1 (Toy.newSession "soft" [Toy.atomAt 6 9])
            = Some (true, e2))
    by (eexists; vm_compute; reflexivity).
  destruct Hrun1 as [e1 Hrun1]. destruct Hrun2 as [e2 Hrun2].
  pose proof (optimize_history_free 1
                (Toy.recovered "soft" [Toy.atomAt 6 9])
                (Toy.newSession "soft" [Toy.atomAt 6 9])
                eq_refl eq_refl eq_refl) as Hsame.
  rewrite Hrun1, Hrun2 in Hsame.
  destruct Hsame as (_ & Hmol & Hrest).
  destruct (Hrest eq_refl) as (_ & Hcoords & _).
  exists e1, e2. now repeat split.
Defined.

Lemma writeCoordinates_after_manual_steps_witness :
  let d := Toy.newSession "soft" [Toy.atomAt 6 20] in
  let d0 := snd (setup d) in
  fst (setup d) = true
  /\ option_map Molecule_coordinates (molecule (writeCoordinates (stepN 2 d0)))
     = Some (coordinates (stepN 2 d0))
  /\ molecule (writeCoordinates d0) = molecule d
  /\ writeCoordinates (writeCoordinates (stepN 2 d0))
     = writeCoordinates (stepN 2 d0).
Proof.
  intros d d0.
  assert (Hok : fst (setup d) = true) by (vm_compute; reflexivity).
  destruct (writeCoordinates_after_manual_steps d 2 Hok)
    as (Hwritten & _ & Hsame & Htwice).
  split; [exact Hok|]. split; [exact Hwritten|].
  split; [exact Hsame | exact Htwice].
Defined.

Lemma errorString_is_never_cleared_witness :
  let d := Toy.newSession "uff" [Toy.atomAt 0 1] in
  let retried :=
    setup (snd (setForceField
                  (setMolecule (snd (setup d))
                     (Some (mkMolecule [Toy.atomAt 6 1]))) "uff")) in
  fst (setup d) = false
  /\ fst retried = true
  /\ errorString (snd retried) = "Failed to setup force field."%string.
Proof.
  intros d retried.
  assert (Hfail : fst (setup d) = false) by (vm_compute; reflexivity).
  assert (Hok : fst retried = true) by (vm_compute; reflexivity).
  destruct (errorString_is_never_cleared d) as (_ & _ & _ & Hretry).
  destruct (Hretry Hfail (Some (mkMolecule [Toy.atomAt 6 1])) "uff"%string Hok)
    as (Hkept & _).
  split; [exact Hfail|]. split; [exact Hok|].
  fold retried in Hkept. rewrite Hkept. vm_compute. reflexivity.
Defined.

Lemma step_before_setup_does_nothing_witness :
  let d := Toy.newSession "uff" [Toy.atomAt 6 1] in
  forceField d = None
  /\ step d = (false, d)
  /\ stepN 4 d = d
  /\ forall fuel : nat, optimizeLoop fuel d = None.
Proof.
  intros d.
  assert (Hunset : forceField d = None) by (vm_compute; reflexivity).
  destruct (step_before_setup_does_nothing d (or_intror Hunset))
    as (Hstep & Hsteps & _ & Hloop & _).
  split; [exact Hunset|]. split; [exact Hstep|].
  split; [exact (Hsteps 4%nat) | exact Hloop].
Defined.

Lemma optimizeCoordinates_uses_default_force_field_witness :
  (exists (m' : Molecule) (r' : nat),
     optimizeCoordinates (FF := Toy.ToyForceField) 7
       (Some (mkMolecule [Toy.atomAt 6 20])) 0%nat
     = Some (true, Some m', r')
     /\ (ff_rmsg (Toy.bound (Toy.Harmonic 1) [20]) (Molecule_coordinates m')
           <? 0.1) = true
     /\ atomicNumber <$> atoms m' = [6%Z])
  /\ optimizeCoordinates (FF := Toy.ToyForceField) 7
       (Some (mkMolecule [Toy.atomAt 0 20])) 0%nat
     = Some (false, Some (mkMolecule [Toy.atomAt 0 20]), 0%nat).
Proof.
  destruct optimizeCoordinates_uses_default_force_field as [_ Hruns].
  split.
  - edestruct (Hruns 7%nat (Some (mkMolecule [Toy.atomAt 6 20])) 0%nat true)
      as (m0 & m' & created & ff & Hm0 & Hom & Hcreate & Hsetup & Hrms & Hnum);
      [vm_compute; reflexivity|].
    injection Hm0 as <-. injection Hcreate as <-. injection Hsetup as <-.
    eexists. eexists. split; [vm_compute; reflexivity|].
    injection Hom as <-. split; [exact Hrms | exact Hnum].
  - edestruct (Hruns 7%nat (Some (mkMolecule [Toy.atomAt 0 20])) 0%nat false)
      as (-> & -> & _); [vm_compute; reflexivity|].
    vm_compute. reflexivity.
Defined.

Lemma step_without_nan_keeps_gradient_and_random_state_witness :
  let ff := Toy.bound (Toy.Harmonic 0.01) [20] in
  let d := Toy.configured "soft" [20] in
  randState (snd (step d)) = randState d
  /\ ls_gradient (afterPasses ff 7 (lineSearchInit ff d))
     = [mkVector3 0.2 0 0]
  /\ ls_coordinates (afterPasses ff 7 (lineSearchInit ff d))
     <> coordinates d.
Proof.
  intros ff d.
  destruct (step_without_nan_keeps_gradient_and_random_state
              d (mkMolecule [Toy.atomAt 6 20]) ff)
    as (Hrand & Hgrad);
    [vm_compute; reflexivity | vm_compute; reflexivity
     | vm_compute; repeat constructor |].
  split; [exact Hrand|]. split.
  - rewrite (Hgrad 7%nat) by (unfold stepCount; lia). vm_compute. reflexivity.
  - intros Heq.
    apply (f_equal (fun c : CartesianCoordinates =>
                      match c with
                      | p :: _ => vx p =? 20
                      | [] => false
                      end)) in Heq.
    vm_compute in Heq. discriminate.
Defined.

Lemma setup_again_starts_over_witness :
  let d := Toy.newSession "soft" [Toy.atomAt 6 20] in
  fst (setup d) = true
  /\ setup (snd (setup d)) = setup d
  /\ coordinates (stepN 2 (snd (setup d))) <> coordinates (snd (setup d))
  /\ fst (setup (stepN 2 (snd (setup d)))) = true
  /\ coordinates (snd (setup (stepN 2 (snd (setup d)))))
     = coordinates (snd (setup d)).
Proof.
  intros d.
  assert (Hok : fst (setup d) = true) by (vm_compute; reflexivity).
  destruct (setup_again_starts_over d) as [Htwice Hafter].
  specialize (Hafter Hok 2%nat). cbn zeta in Hafter.
  split; [exact Hok|]. split; [exact Htwice|]. split.
  - intros Heq.
    apply (f_equal (fun c : CartesianCoordinates =>
                      match c with
                      | p :: _ => vx p =? 20
                      | [] => false
                      end)) in Heq.
    vm_compute in Heq. discriminate.
  - rewrite Hafter. split; reflexivity.
Defined.

Lemma calls_after_setup_stay_in_range_witness :
  let d := Toy.newSession "soft" [Toy.atomAt 6 20] in
  let d3 := stepN 3 (snd (setup d)) in
  fst (setup d) = true
  /\ stepChecked d3 = Some (step d3)
  /\ writeCoordinatesChecked d3 = Some (writeCoordinates d3)
  /\ stepChecked (snd (setup (Toy.newSession "uff" [Toy.atomAt 0 1]))) = None
  /\ writeCoordinatesChecked
       (snd (setup (Toy.newSession "uff" [Toy.atomAt 0 1]))) = None.
Proof.
  intros d d3.
  assert (Hm : molecule d = Some (mkMolecule [Toy.atomAt 6 20]))
    by (vm_compute; reflexivity).
  assert (Hok : fst (setup d) = true) by (vm_compute; reflexivity).
  assert (Hff : forceField (snd (setup d))
                = Some (Toy.bound (Toy.Harmonic 0.01) [20]))
    by (vm_compute; reflexivity).
  destruct (calls_after_setup_stay_in_range
              d (mkMolecule [Toy.atomAt 6 20])
              (Toy.bound (Toy.Harmonic 0.01) [20]) Hm Hok Hff)
    as (Hrange & _).
  - vm_compute. lia.
  - intros c Hc. unfold ff_gradient, Toy.toyForceField, Toy.toyGradient.
    rewrite length_fmap, Hc. vm_compute. lia.
  - destruct (Hrange 3%nat) as [Hstep Hwrite].
    split; [exact Hok|]. split; [exact Hstep|]. split; [exact Hwrite|].
    split; vm_compute; reflexivity.
Defined.
